(** * Frame capture scripts of [src/opencv]: quad-view splitting, frame
      extraction and frame numbering

    The three scripts drive OpenCV through a handful of calls.  The arrays
    they handle are modelled the way numpy stores them (a buffer, an offset
    and a shape, so that a basic slice is a view of its base array), the
    video handles as explicit values, and every call that touches the outside
    world is recorded in a log. *)

From Stdlib Require Import ZArith Lia Ascii.
From stdpp Require Import base option list numbers strings pretty.

Set Default Proof Using "Type".

(** ** Arrays *)

Section ndarray.
Context {A : Type}.

(** A two-dimensional array of pixels: [buf] is the underlying buffer as a
    list of rows, [(row0, col0)] the position of the array's first pixel
    in the buffer and [(n_rows, n_cols)] its shape ([img.shape[:2]]). *)
Record ndarray := NdArray {
  buf : list (list A);
  row0 : nat;
  col0 : nat;
  n_rows : nat;
  n_cols : nat
}.

Definition shape (a : ndarray) : nat * nat := (n_rows a, n_cols a).

(** [a[r, c]]; [None] stands for numpy's IndexError. *)
Definition item (a : ndarray) (r c : nat) : option A :=
  if decide (r < n_rows a ∧ c < n_cols a)
  then buf a !! (row0 a + r) ≫= (.!! (col0 a + c))
  else None.

(** The buffer is large enough for the shape. *)
Definition wf (a : ndarray) : Prop :=
  row0 a + n_rows a ≤ length (buf a) ∧
  Forall (λ row, col0 a + n_cols a ≤ length row) (buf a).

(** An array that owns its buffer: no offset, and the buffer has exactly
    the array's shape. *)
Definition owned (a : ndarray) : Prop :=
  row0 a = 0 ∧ col0 a = 0 ∧ length (buf a) = n_rows a ∧
  Forall (λ row, length row = n_cols a) (buf a).

(** The rows of the array, copied out of the buffer. *)
Definition to_rows (a : ndarray) : list (list A) :=
  (λ row, take (n_cols a) (drop (col0 a) row))
    <$> take (n_rows a) (drop (row0 a) (buf a)).

Definition of_rows (h w : nat) (rows : list (list A)) : ndarray :=
  NdArray rows 0 0 h w.

(** [start:stop] on an axis of length [n], for non-negative bounds: both
    are clipped to [n]; the result is (first index, length). *)
Definition slice_indices (start stop n : nat) : nat * nat :=
  (start `min` n, (stop `min` n) - (start `min` n)).

(** [a[r_start:r_stop, c_start:c_stop]]: basic slicing, a view of [a]. *)
Definition getitem (a : ndarray) (r_start r_stop c_start c_stop : nat)
  : ndarray :=
  let '(r, h) := slice_indices r_start r_stop (n_rows a) in
  let '(c, w) := slice_indices c_start c_stop (n_cols a) in
  NdArray (buf a) (row0 a + r) (col0 a + c) h w.

(** The buffer position [(r, c)] lies inside the array. *)
Definition covers (a : ndarray) (r c : nat) : bool :=
  bool_decide (row0 a ≤ r < row0 a + n_rows a ∧
               col0 a ≤ c < col0 a + n_cols a).

(** *** OpenCV's array operations *)

(** [cv::transpose]: column [j] of the source becomes row [j]. *)
Fixpoint transpose (n : nat) (m : list (list A)) : list (list A) :=
  match m with
  | [] => replicate n []
  | row :: m' => zip_with cons row (transpose n m')
  end.

Definition cv2_transpose (src : ndarray) : ndarray :=
  of_rows (n_cols src) (n_rows src) (transpose (n_cols src) (to_rows src)).

(** [cv::flip]: 0 flips around the x-axis (the rows are reversed), a
    positive code around the y-axis, a negative code around both. *)
Definition cv2_flip (src : ndarray) (flipCode : Z) : ndarray :=
  let rows := to_rows src in
  of_rows (n_rows src) (n_cols src)
    (if decide (flipCode = 0)%Z then reverse rows
     else if decide (0 < flipCode)%Z then reverse <$> rows
     else reverse (reverse <$> rows)).

Definition ROTATE_90_CLOCKWISE : Z := 0.
Definition ROTATE_180 : Z := 1.
Definition ROTATE_90_COUNTERCLOCKWISE : Z := 2.

(** Modelled from the spec: [cv2.rotate] is OpenCV's and no part of
    [src/].  The spec and the comment at line 28 of capture_channel.py say
    that code 2 turns the frame by 270 degrees clockwise, that is by 90
    degrees counter-clockwise, and swaps width and height.  It is written
    here the way [cv::rotate] is, with [transpose] and [flip]; the other
    two codes are OpenCV's, and any further code leaves no image and is an
    error here. *)
Definition cv2_rotate (src : ndarray) (rotateCode : Z) : option ndarray :=
  if decide (rotateCode = ROTATE_90_CLOCKWISE) then
    Some (cv2_flip (cv2_transpose src) 1)
  else if decide (rotateCode = ROTATE_180) then
    Some (cv2_flip src (-1))
  else if decide (rotateCode = ROTATE_90_COUNTERCLOCKWISE) then
    Some (cv2_flip (cv2_transpose src) 0)
  else None.

(** The interpolation of [cv2.resize] (bilinear by default) computes pixel
    values in floating point; it stays a parameter: [INTER_LINEAR src h w r c]
    is pixel [(r, c)] of [src] resized to [h] rows and [w] columns. *)
Variable INTER_LINEAR : ndarray → nat → nat → nat → nat → A.

(** [cv2.resize(src, (width, height))]: a new array of [height] rows and
    [width] columns.  OpenCV rejects an empty source and an empty
    destination size ([None]). *)
Definition cv2_resize (src : ndarray) (dsize : Z * Z) : option ndarray :=
  let '(width, height) := dsize in
  if decide (0 < width ∧ 0 < height)%Z then
    if decide (0 < n_rows src ∧ 0 < n_cols src) then
      let h := Z.to_nat height in
      let w := Z.to_nat width in
      Some (of_rows h w
              ((λ r, INTER_LINEAR src h w r <$> seq 0 w) <$> seq 0 h))
    else None
  else None.

(** ** capture_channel.py: [rotate_and_split_into_channels] *)

Definition rotate_and_split_into_channels
    (frame : ndarray) (IMAGE_WIDTH IMAGE_HEIGHT : Z)
  : option (list ndarray) :=
  img ← cv2_resize frame (IMAGE_WIDTH, IMAGE_HEIGHT);
  img ← cv2_rotate img 2;
  let '(rotated_height, rotated_width) := shape img in
  let w_half := rotated_width `div` 2 in
  let h_half := rotated_height `div` 2 in
  let ch1 := getitem img h_half rotated_height 0 w_half in
  let ch2 := getitem img 0 h_half 0 w_half in
  let ch3 := getitem img h_half rotated_height w_half rotated_width in
  let ch4 := getitem img 0 h_half w_half rotated_width in
  Some [ch1; ch2; ch3; ch4].

(** The array the quadrants are cut from (lines 30-31). *)
Definition rotated_frame (frame : ndarray) (IMAGE_WIDTH IMAGE_HEIGHT : Z)
  : option ndarray :=
  img ← cv2_resize frame (IMAGE_WIDTH, IMAGE_HEIGHT);
  cv2_rotate img 2.

Definition area (a : ndarray) : nat := n_rows a * n_cols a.

(** [ch] is rows [r1, r2) and columns [c1, c2) of [a]: a view of the same
    buffer, placed there, whose pixels are those of [a]. *)
Definition is_region (a ch : ndarray) (r1 r2 c1 c2 : nat) : Prop :=
  buf ch = buf a ∧
  row0 ch = row0 a + r1 ∧ col0 ch = col0 a + c1 ∧
  shape ch = (r2 - r1, c2 - c1) ∧
  ∀ i j, i < r2 - r1 → j < c2 - c1 →
    is_Some (item ch i j) ∧ item ch i j = item a (r1 + i) (c1 + j).

(** [rot] is [img] turned by 90 degrees counter-clockwise: the dimensions
    are swapped and pixel [(r, c)] of [rot] is pixel [(c, W - 1 - r)] of
    [img], [W] being the width of [img]. *)
Definition turned_ccw (img rot : ndarray) : Prop :=
  n_cols rot = n_rows img ∧ n_rows rot = n_cols img ∧
  ∀ r c, r < n_rows rot → c < n_cols rot →
    is_Some (item rot r c) ∧
    item rot r c = item img c (n_cols img - 1 - r).

(** *** What is stated about the four quadrants *)

(** The frame can be resized to [W] x [H]: OpenCV wants a non-empty source
    and a non-empty target. *)
Definition resizable (frame : ndarray) (W H : Z) : Prop :=
  (0 < W)%Z ∧ (0 < H)%Z ∧ 0 < n_rows frame ∧ 0 < n_cols frame.

(** [ch1] is the bottom-left region of [rot], [ch2] the top-left, [ch3] the
    bottom-right and [ch4] the top-right. *)
Definition quadrant_layout (rot : ndarray) (chs : list ndarray) : Prop :=
  let h := n_rows rot in
  let w := n_cols rot in
  ∃ ch1 ch2 ch3 ch4,
    chs = [ch1; ch2; ch3; ch4] ∧
    is_region rot ch1 (h `div` 2) h 0 (w `div` 2) ∧
    is_region rot ch2 0 (h `div` 2) 0 (w `div` 2) ∧
    is_region rot ch3 (h `div` 2) h (w `div` 2) w ∧
    is_region rot ch4 0 (h `div` 2) (w `div` 2) w.

(** The quadrants are rectangles of [rot]'s buffer that lie inside [rot],
    and every pixel of [rot] is in exactly one of them. *)
Definition quadrants_partition (rot : ndarray) (chs : list ndarray) : Prop :=
  length chs = 4 ∧
  Forall (λ ch, buf ch = buf rot ∧
                row0 ch + n_rows ch ≤ n_rows rot ∧
                col0 ch + n_cols ch ≤ n_cols rot) chs ∧
  ∀ r c, r < n_rows rot → c < n_cols rot →
    ∃ k ch, chs !! k = Some ch ∧ covers ch r c = true ∧
      ∀ k' ch', chs !! k' = Some ch' → covers ch' r c = true → k' = k.

(** Every quadrant has the halved, rounded-down shape and the areas add up
    to the even part of the frame. *)
Definition floor_sized (rot : ndarray) (chs : list ndarray) : Prop :=
  Forall (λ ch, shape ch = (n_rows rot `div` 2, n_cols rot `div` 2)) chs ∧
  sum_list (area <$> chs)
    = (n_cols rot `div` 2 * 2) * (n_rows rot `div` 2 * 2).

(** The sizes the slices have: the lower and the right quadrants take what
    is left of an odd dimension, so the areas add up to the whole frame. *)
Definition quadrant_sizes (rot : ndarray) (chs : list ndarray) : Prop :=
  let h := n_rows rot in
  let w := n_cols rot in
  shape <$> chs = [(h - h `div` 2, w `div` 2); (h `div` 2, w `div` 2);
                   (h - h `div` 2, w - w `div` 2);
                   (h `div` 2, w - w `div` 2)] ∧
  sum_list (area <$> chs) = w * h ∧
  (h `mod` 2 = 0 → w `mod` 2 = 0 → floor_sized rot chs).

(** The shapes of the quadrants of a frame of [h] rows and [w] columns,
    with the halves rounded up for channels 1 and 3 (rows) and for
    channels 3 and 4 (columns). *)
Definition ceil_sized (h w : nat) (chs : list ndarray) : Prop :=
  shape <$> chs = [((h + 1) `div` 2, w `div` 2); (h `div` 2, w `div` 2);
                   ((h + 1) `div` 2, (w + 1) `div` 2);
                   (h `div` 2, (w + 1) `div` 2)].

End ndarray.

Arguments ndarray : clear implicits.

(** Nearest-neighbour sampling, one of the interpolations [cv2.resize]
    offers; [d] fills in where the source has no pixel. *)
Definition INTER_NEAREST {A} (d : A) (src : ndarray A)
    (h w r c : nat) : A :=
  default d (item src (r * n_rows src `div` h) (c * n_cols src `div` w)).

(** A 2x3 frame of numbered pixels. *)
Definition sample_frame : ndarray nat := of_rows 2 3 [[1; 2; 3]; [4; 5; 6]].

(** ** Paths and number formatting (Python's [os.path] and format specs) *)

Definition is_sep (c : ascii) : bool := bool_decide (c = "/"%char).

(** The list without its trailing characters that satisfy [f]. *)
Definition rstrip (f : ascii → bool) (l : list ascii) : list ascii :=
  foldr (λ c acc, match acc with
                  | [] => if f c then [] else [c]
                  | _ => c :: acc
                  end) [] l.

(** [os.path.dirname]: the path up to its last separator, without the
    separators that end it unless it has nothing else. *)
Definition os_path_dirname (p : string) : string :=
  let head := rstrip (λ c, negb (is_sep c)) (String.list_ascii_of_string p) in
  String.string_of_list_ascii
    (if forallb is_sep head then head else rstrip is_sep head).

(** [os.path.join] of two components. *)
Definition os_path_join (a b : string) : string :=
  if String.prefix "/" b then b
  else if bool_decide (a = EmptyString) then b
  else if forallb is_sep (drop (String.length a - 1) (String.list_ascii_of_string a))
       then a +:+ b
       else a +:+ "/" +:+ b.

(** [str.zfill] on a string of digits. *)
Definition zfill (width : nat) (digits : string) : string :=
  String.string_of_list_ascii
    (replicate (width - String.length digits) "0"%char) +:+ digits.

(** The format spec [:04d]: at least four characters, zeros after the sign. *)
Definition format_04d (n : Z) : string :=
  if decide (n < 0)%Z then "-" +:+ zfill 3 (pretty (Z.abs_N n))
  else zfill 4 (pretty (Z.abs_N n)).

(** ** Video files, handles and the calls that reach the outside world *)

Section scripts.
Context {A : Type}.
Local Abbreviation frame := (ndarray A).

(** A video file as OpenCV sees it: what the container reports, and what
    decoding each position gives ([None] where a frame cannot be
    decoded).  The reported count comes from the container and need not be
    the number of frames that decode. *)
Record Video := {
  CAP_PROP_FRAME_COUNT : Z;
  CAP_PROP_FRAME_WIDTH : Z;
  CAP_PROP_FRAME_HEIGHT : Z;
  decoded : list (option frame)
}.

(** [cv2.VideoCapture]: [source] is [None] when the file could not be
    opened, [pos] is [CAP_PROP_POS_FRAMES]. *)
Record VideoCapture := { source : option Video; pos : nat }.

Record VideoWriter := { w_opened : bool }.

(** The calls with an effect outside the program, in the order made.
    Console output is left out. *)
Inductive call :=
  | open_capture (path : string)
  | seek (n : Z)
  | read
  | release_capture
  | open_writer (path : string) (width height : Z)
  | write (img : frame)
  | release_writer
  | makedirs (dir : string)
  | imwrite (path : string) (img : frame)
  | imshow (title : string) (img : frame)
  | waitKey
  | destroyAllWindows.

Inductive exn :=
  | cv2_error | IndexError | ZeroDivisionError | FileNotFoundError
  | out_of_fuel.

(** A computation ends with a value or an exception, and has made calls. *)
Definition M (X : Type) : Type := (exn + X) * list call.

#[global] Instance M_ret : MRet M := λ X x, (inr x, []).
#[global] Instance M_bind : MBind M := λ X Y k m,
  match m with
  | (inr x, l) => let '(r, l') := k x in (r, l ++ l')
  | (inl e, l) => (inl e, l)
  end.

Definition raise {X} (e : exn) : M X := (inl e, []).
Definition do (c : call) : M unit := (inr tt, [c]).

(** [os.makedirs(dir, exist_ok=True)]: Python refuses the empty name with
    a FileNotFoundError and makes no directory. *)
Definition os_makedirs (dir : string) : M unit :=
  if bool_decide (dir = EmptyString) then raise FileNotFoundError
  else do (makedirs dir).

(** The files on disk and the paths at which a video can be created. *)
Variable videos : string → option Video.
Variable writable : string → bool.

Definition cv2_VideoCapture (path : string) : M VideoCapture :=
  do (open_capture path);; mret {| source := videos path; pos := 0 |}.

Definition isOpened (cap : VideoCapture) : bool :=
  bool_decide (is_Some (source cap)).

(** [cap.get(prop)], 0 on a handle that is not open. *)
Definition cap_get (cap : VideoCapture) (prop : Video → Z) : Z :=
  from_option prop 0%Z (source cap).

(** [cap.set(cv2.CAP_PROP_POS_FRAMES, n)] *)
Definition cap_set_pos (cap : VideoCapture) (n : Z) : M VideoCapture :=
  do (seek n);; mret {| source := source cap; pos := Z.to_nat n |}.

(** [cap.read()]: the frame at the current position and the handle moved
    past it, or no frame ([ret] false). *)
Definition cap_read (cap : VideoCapture)
  : M (option frame * VideoCapture) :=
  do read;;
  mret (match source cap ≫= λ v, mjoin (decoded v !! pos cap) with
        | Some img => (Some img, {| source := source cap; pos := S (pos cap) |})
        | None => (None, cap)
        end).

Definition cap_release (cap : VideoCapture) : M unit := do release_capture.

Definition cv2_VideoWriter (path : string) (size : Z * Z) : M VideoWriter :=
  do (open_writer path size.1 size.2);; mret {| w_opened := writable path |}.

Definition out_write (out : VideoWriter) (img : frame) : M unit :=
  do (write img).

Definition out_release (out : VideoWriter) : M unit := do release_writer.

(** The calls of a log that write an image file. *)
Definition written_images (log : list call) : list (string * frame) :=
  omap (λ c, match c with imwrite p img => Some (p, img) | _ => None end) log.

(** The frames of a log that were written to a video. *)
Definition written_frames (log : list call) : list frame :=
  omap (λ c, match c with write img => Some img | _ => None end) log.

(** ** frame_capture.py *)

Definition capture_specific_frame
    (video_path : string) (frame_number : Z) (output_path : string)
  : M bool :=
  cap ← cv2_VideoCapture video_path;
  if negb (isOpened cap) then mret false
  else
    let total_frames := cap_get cap CAP_PROP_FRAME_COUNT in
    if ((frame_number >=? total_frames) || (frame_number <? 0))%Z then
      cap_release cap;; mret false
    else
      cap ← cap_set_pos cap frame_number;
      '(ret, cap) ← cap_read cap;
      match ret with
      | Some img =>
          let output_dir := os_path_dirname output_path in
          (if bool_decide (output_dir = EmptyString) then mret tt
           else do (makedirs output_dir));;
          do (imwrite output_path img);;
          do (imshow ("Frame " +:+ pretty frame_number) img);;
          do waitKey;;
          do destroyAllWindows;;
          cap_release cap;;
          mret true
      | None =>
          cap_release cap;; mret false
      end.

(** The body of the [for] loop of [capture_multiple_frames]. *)
Fixpoint capture_each
    (cap : VideoCapture) (total_frames : Z) (output_dir : string)
    (frame_numbers : list Z) : M VideoCapture :=
  match frame_numbers with
  | [] => mret cap
  | frame_num :: rest =>
      if ((frame_num >=? total_frames) || (frame_num <? 0))%Z then
        capture_each cap total_frames output_dir rest
      else
        cap ← cap_set_pos cap frame_num;
        '(ret, cap) ← cap_read cap;
        match ret with
        | Some img =>
            let output_path :=
              os_path_join output_dir
                ("frame_" +:+ format_04d frame_num +:+ ".jpg") in
            do (imwrite output_path img)
        | None => mret tt
        end;;
        capture_each cap total_frames output_dir rest
  end.

Definition capture_multiple_frames
    (video_path : string) (frame_numbers : list Z) (output_dir : string)
  : M unit :=
  os_makedirs output_dir;;
  cap ← cv2_VideoCapture video_path;
  if negb (isOpened cap) then mret tt
  else
    let total_frames := cap_get cap CAP_PROP_FRAME_COUNT in
    cap ← capture_each cap total_frames output_dir frame_numbers;
    cap_release cap.

(** The frame that a request for frame number [n] of [v] obtains: none
    when [n] is out of the reported range or when decoding fails there. *)
Definition frame_at (v : Video) (n : Z) : option frame :=
  if ((n >=? CAP_PROP_FRAME_COUNT v) || (n <? 0))%Z then None
  else mjoin (decoded v !! Z.to_nat n).

(** The image files expected of [capture_multiple_frames]: one for each
    requested number that obtains a frame, in the order of the list. *)
Definition expected_images
    (v : Video) (output_dir : string) (frame_numbers : list Z)
  : list (string * frame) :=
  omap (λ n, img ← frame_at v n;
             Some (os_path_join output_dir
                     ("frame_" +:+ format_04d n +:+ ".jpg"), img))
       frame_numbers.

(** ** capture_channel.py: [capture_channel_from_frame] *)

Variable INTER_LINEAR : frame → nat → nat → nat → nat → A.

Definition capture_channel_from_frame
    (video_path : string) (frame_number : Z) (channel : Z)
    (output_path : option string) (IMAGE_WIDTH IMAGE_HEIGHT : option Z)
  : M bool :=
  if negb (bool_decide (channel ∈ [1; 2; 3; 4]%Z)) then mret false
  else
    cap ← cv2_VideoCapture video_path;
    if negb (isOpened cap) then mret false
    else
      let total_frames := cap_get cap CAP_PROP_FRAME_COUNT in
      let original_width := cap_get cap CAP_PROP_FRAME_WIDTH in
      let original_height := cap_get cap CAP_PROP_FRAME_HEIGHT in
      let IMAGE_WIDTH := default original_width IMAGE_WIDTH in
      let IMAGE_HEIGHT := default original_height IMAGE_HEIGHT in
      if ((frame_number >=? total_frames) || (frame_number <? 0))%Z then
        cap_release cap;; mret false
      else
        cap ← cap_set_pos cap frame_number;
        '(ret, cap) ← cap_read cap;
        match ret with
        | None => cap_release cap;; mret false
        | Some img =>
            channels ← from_option mret (raise cv2_error)
              (rotate_and_split_into_channels INTER_LINEAR
                 img IMAGE_WIDTH IMAGE_HEIGHT);
            selected_channel ← from_option mret (raise IndexError)
              (channels !! Z.to_nat (channel - 1));
            let output_path :=
              default ("src/opencv/output/frame_" +:+ format_04d frame_number
                       +:+ "_ch" +:+ pretty channel +:+ ".jpg")
                      output_path in
            let output_dir := os_path_dirname output_path in
            (if bool_decide (output_dir = EmptyString) then mret tt
             else do (makedirs output_dir));;
            do (imwrite output_path selected_channel);;
            do (imshow ("Frame " +:+ pretty frame_number +:+ " - Channel "
                        +:+ pretty channel) selected_channel);;
            do waitKey;;
            do destroyAllWindows;;
            cap_release cap;;
            mret true
        end.

(** ** add_frame_numbers.py *)

(** OpenCV's drawing calls work on pixels, with floating-point blending,
    and stay parameters.  Each returns the image it has drawn on. *)
Variable cv2_getTextSize : string → Z → Z → (Z * Z) * Z.
Variable cv2_rectangle : frame → Z * Z → Z * Z → Z * Z * Z → Z → frame.
(** [cv2.addWeighted(overlay, 0.6, frame, 0.4, 0, frame)] *)
Variable cv2_addWeighted_06_04 : frame → frame → frame.
Variable cv2_putText : frame → string → Z * Z → Z → Z * Z * Z → Z → frame.

(** The counter as it is drawn on frame number [frame_count]. *)
Definition counter_text (frame_count : nat) : string :=
  "Frame: " +:+ pretty frame_count.

(** Lines 57-89: the frame with its number burned in. *)
Definition annotate
    (font_scale thickness : Z) (color : Z * Z * Z)
    (frame_count : nat) (img : frame) : frame :=
  let text := counter_text frame_count in
  let '((text_width, text_height), baseline) :=
    cv2_getTextSize text font_scale thickness in
  let '(x, y) := (10, 50)%Z in
  let overlay :=
    cv2_rectangle img (x - 5, y - text_height - 5)%Z
      (x + text_width + 5, y + baseline + 5)%Z (0, 0, 0)%Z (-1) in
  let img := cv2_addWeighted_06_04 overlay img in
  cv2_putText img text (x, y) font_scale color thickness.

(** The [while True] loop.  [fuel] bounds the number of iterations; the
    loop itself ends at the first read that gives no frame. *)
Fixpoint annotation_loop
    (fuel : nat) (cap : VideoCapture) (out : VideoWriter)
    (font_scale thickness : Z) (color : Z * Z * Z)
    (total_frames : Z) (frame_count : nat) : M nat :=
  match fuel with
  | 0 => raise out_of_fuel
  | S fuel =>
      '(ret, cap) ← cap_read cap;
      match ret with
      | None => mret frame_count
      | Some img =>
          let img := annotate font_scale thickness color frame_count img in
          out_write out img;;
          let frame_count := frame_count + 1 in
          (if bool_decide (frame_count `mod` 30 = 0) then
             (* progress = (frame_count / total_frames) * 100 *)
             if bool_decide (total_frames = 0%Z) then raise ZeroDivisionError
             else mret tt
           else mret tt);;
          annotation_loop fuel cap out font_scale thickness color
            total_frames frame_count
      end
  end.

Definition add_frame_numbers_to_video
    (fuel : nat) (input_path output_path : string)
    (font_scale thickness : Z) (color : Z * Z * Z) : M bool :=
  cap ← cv2_VideoCapture input_path;
  if negb (isOpened cap) then mret false
  else
    let width := cap_get cap CAP_PROP_FRAME_WIDTH in
    let height := cap_get cap CAP_PROP_FRAME_HEIGHT in
    let total_frames := cap_get cap CAP_PROP_FRAME_COUNT in
    out ← cv2_VideoWriter output_path (width, height);
    if negb (w_opened out) then cap_release cap;; mret false
    else
      frame_count ← annotation_loop 
        fuel cap out font_scale thickness color total_frames 0;
      cap_release cap;;
      out_release out;;
      mret true.

End scripts.

Arguments Video : clear implicits.
Arguments VideoCapture : clear implicits.
Arguments call : clear implicits.
Arguments M : clear implicits.

(** A video of 30 frames [img] whose container reports no frame count, as OpenCV
    gives 0 for [CAP_PROP_FRAME_COUNT] when the container does not tell. *)
Definition uncounted_video {A} (img : ndarray A) : Video A := {|
  CAP_PROP_FRAME_COUNT := 0;
  CAP_PROP_FRAME_WIDTH := Z.of_nat (n_cols img);
  CAP_PROP_FRAME_HEIGHT := Z.of_nat (n_rows img);
  decoded := replicate 30 (Some img)
|}.

(** A video that reports three frames, the second of which does not decode,
    and a disk that holds it under one name. *)
Definition sample_video : Video nat := {|
  CAP_PROP_FRAME_COUNT := 3;
  CAP_PROP_FRAME_WIDTH := 3;
  CAP_PROP_FRAME_HEIGHT := 2;
  decoded := [Some sample_frame; None; Some sample_frame]
|}.

Definition sample_files (path : string) : option (Video nat) :=
  if bool_decide (path = "in.mp4") then Some sample_video else None.

(** ** Further notions used to describe the scripts *)

(** [ch] shows rows [r1, r2) and columns [c1, c2) of [img] turned by 90
    degrees counter-clockwise: pixel [(i, j)] of [ch] is pixel
    [(r1 + j, c2 - 1 - i)] of [img]. *)
Definition is_turned_region {A} (img ch : ndarray A)
    (r1 r2 c1 c2 : nat) : Prop :=
  shape ch = (c2 - c1, r2 - r1) ∧
  ∀ i j, i < c2 - c1 → j < r2 - r1 →
    is_Some (item ch i j) ∧ item ch i j = item img (r1 + j) (c2 - 1 - i).

(** The layout the docstring of [rotate_and_split_into_channels] gives, read
    on the frame before it is rotated: [ch1] is its top-left part, [ch2] its
    top-right, [ch3] its bottom-left and [ch4] its bottom-right. *)
Definition source_layout {A} (img : ndarray A) (chs : list (ndarray A))
  : Prop :=
  let H := n_rows img in
  let W := n_cols img in
  ∃ ch1 ch2 ch3 ch4,
    chs = [ch1; ch2; ch3; ch4] ∧
    is_turned_region img ch1 0 (H `div` 2) 0 (W - W `div` 2) ∧
    is_turned_region img ch2 0 (H `div` 2) (W - W `div` 2) W ∧
    is_turned_region img ch3 (H `div` 2) H 0 (W - W `div` 2) ∧
    is_turned_region img ch4 (H `div` 2) H (W - W `div` 2) W.

(** The calls [capture_multiple_frames] makes for one requested frame
    number: none when it is out of range, else a seek and a read, and the
    writing of the image when the read gives a frame. *)
Definition calls_for_frame {A} (v : Video A) (output_dir : string) (n : Z)
  : list (call A) :=
  if ((n >=? CAP_PROP_FRAME_COUNT v) || (n <? 0))%Z then []
  else [seek n; read] ++
       match mjoin (decoded v !! Z.to_nat n) with
       | Some img =>
           [imwrite (os_path_join output_dir
                       ("frame_" +:+ format_04d n +:+ ".jpg")) img]
       | None => []
       end.

(** The name [capture_channel_from_frame] gives the image when the caller
    gives none. *)
Definition default_channel_path (frame_number channel : Z) : string :=
  "src/opencv/output/frame_" +:+ format_04d frame_number
    +:+ "_ch" +:+ pretty channel +:+ ".jpg".

(** The shape of channel number [channel] for the target [W] x [H]: the
    rotated frame has [W] rows and [H] columns; channels 1 and 3 take the
    rounded-up half of the rows, channels 3 and 4 that of the columns. *)
Definition channel_shape (W H channel : Z) : nat * nat :=
  let h := Z.to_nat W in
  let w := Z.to_nat H in
  (if bool_decide (channel = 1 ∨ channel = 3)%Z
   then (h + 1) `div` 2 else h `div` 2,
   if bool_decide (channel = 3 ∨ channel = 4)%Z
   then (w + 1) `div` 2 else w `div` 2).

(** Drawing calls that leave the image as it is, to run the numbering script
    on sample data. *)
Definition plain_getTextSize (text : string) (font_scale thickness : Z)
  : (Z * Z) * Z := ((0, 0), 0)%Z.
Definition plain_rectangle {A} (img : ndarray A) (pt1 pt2 : Z * Z)
    (color : Z * Z * Z) (thickness : Z) : ndarray A := img.
Definition plain_addWeighted {A} (overlay img : ndarray A) : ndarray A := img.
Definition plain_putText {A} (img : ndarray A) (text : string) (org : Z * Z)
    (font_scale : Z) (color : Z * Z * Z) (thickness : Z) : ndarray A := img.

(** A numeral: the digit 0 alone, or digits that do not start with 0. *)
Definition numeral (l : list ascii) : Prop :=
  l = ["0"%char] ∨ ∃ c r, l = c :: r ∧ c ≠ "0"%char.

(** A frame without rows, as [numpy.zeros((0, 3))] is. *)
Definition empty_frame : ndarray nat := of_rows 0 3 [].
(** ** Facts about arrays *)

Section ndarray_facts.
Context {A : Type}.
Implicit Types (a src img : ndarray A) (m : list (list A)).

Lemma owned_wf a : owned a → wf a.
Proof.
  intros (Hr & Hc & Hlen & Hrows). split; [lia|].
  eapply Forall_impl; [exact Hrows|]. intros row Hrow. simpl in Hrow. lia.
Qed.

Lemma to_rows_length a : wf a → length (to_rows a) = n_rows a.
Proof.
  intros [Hr _]. unfold to_rows.
  rewrite length_fmap, length_take, length_drop. lia.
Qed.

Lemma to_rows_width a :
  wf a → Forall (λ row, length row = n_cols a) (to_rows a).
Proof.
  intros [_ Hc]. unfold to_rows. apply Forall_fmap, Forall_take, Forall_drop.
  eapply Forall_impl; [exact Hc|]. intros row Hrow; simpl in *.
  rewrite length_take, length_drop. lia.
Qed.

(** Reading the copied rows is reading the array. *)
Lemma to_rows_lookup a r c :
  to_rows a !! r ≫= (.!! c) = item a r c.
Proof.
  unfold to_rows, item.
  rewrite list_lookup_fmap, lookup_take, lookup_drop.
  destruct (decide (r < n_rows a)) as [Hr|Hr].
  - destruct (buf a !! (row0 a + r)) as [row|]; simpl.
    + rewrite lookup_take, lookup_drop.
      repeat case_decide; try done; lia.
    + by case_decide.
  - simpl. case_decide; [lia|done].
Qed.

Lemma item_Some_wf a r c :
  wf a → r < n_rows a → c < n_cols a → is_Some (item a r c).
Proof.
  intros [Hr Hc] Hlt1 Hlt2. unfold item. rewrite decide_True by done.
  destruct (lookup_lt_is_Some_2 (buf a) (row0 a + r)) as [row Hrow]; [lia|].
  rewrite Hrow; simpl. apply lookup_lt_is_Some_2.
  eapply Forall_lookup_1 in Hc; [|exact Hrow]. simpl in Hc. lia.
Qed.

(** *** Transposition *)

Lemma transpose_length n m :
  Forall (λ row, length row = n) m → length (transpose n m) = n.
Proof.
  induction 1 as [|row m' Hrow _ IH]; simpl.
  - apply length_replicate.
  - rewrite length_zip_with. lia.
Qed.

Lemma transpose_lookup n m i j :
  Forall (λ row, length row = n) m → j < n →
  transpose n m !! j ≫= (.!! i) = m !! i ≫= (.!! j).
Proof.
  intros Hm Hj. revert i.
  induction Hm as [|row m' Hrow Hm' IH]; intros i; simpl.
  - by rewrite lookup_replicate_2.
  - rewrite lookup_zip_with.
    destruct (lookup_lt_is_Some_2 row j) as [x Hx]; [lia|].
    destruct (lookup_lt_is_Some_2 (transpose n m') j) as [col Hcol];
      [by rewrite transpose_length|].
    rewrite Hx, Hcol; simpl.
    destruct i as [|i]; simpl; [done|].
    by rewrite <-IH, Hcol.
Qed.

Lemma transpose_width n m :
  Forall (λ row, length row = n) m →
  Forall (λ col, length col = length m) (transpose n m).
Proof.
  induction 1 as [|row m' Hrow Hm' IH]; simpl.
  - by apply Forall_replicate.
  - apply Forall_lookup_2. intros j col Hcol.
    apply lookup_zip_with_Some in Hcol as (x & col' & -> & _ & Hcol').
    simpl. f_equal. by eapply (Forall_lookup_1 _ _ _ _ IH).
Qed.

Lemma cv2_transpose_owned src : wf src → owned (cv2_transpose src).
Proof.
  intros Hwf. unfold cv2_transpose, of_rows, owned; simpl.
  pose proof (to_rows_width _ Hwf) as Hw.
  split_and!; [done|done|by apply transpose_length|].
  rewrite <-(to_rows_length _ Hwf). by apply transpose_width.
Qed.

Lemma cv2_transpose_item src r c :
  wf src → item (cv2_transpose src) r c = item src c r.
Proof.
  intros Hwf. rewrite <-(to_rows_lookup src).
  unfold item at 1; simpl.
  case_decide as Hrc.
  - apply transpose_lookup; [by apply to_rows_width|lia].
  - symmetry. rewrite to_rows_lookup. unfold item. case_decide; [lia|done].
Qed.

(** *** Flipping around the x-axis *)

Lemma cv2_flip_0_owned src : wf src → owned (cv2_flip src 0).
Proof.
  intros Hwf. unfold cv2_flip, of_rows, owned; simpl.
  split_and!; [done|done|by rewrite length_reverse, to_rows_length|].
  apply Forall_reverse, to_rows_width, Hwf.
Qed.

Lemma cv2_flip_0_item src r c :
  wf src → r < n_rows src →
  item (cv2_flip src 0) r c = item src (n_rows src - 1 - r) c.
Proof.
  intros Hwf Hr. rewrite <-(to_rows_lookup src).
  unfold item at 1; simpl.
  rewrite reverse_lookup by (rewrite to_rows_length; [lia|done]).
  rewrite to_rows_length by done.
  replace (n_rows src - S r) with (n_rows src - 1 - r) by lia.
  case_decide as Hrc; [done|].
  rewrite to_rows_lookup. unfold item. case_decide; [lia|done].
Qed.

(** *** Rotation by 90 degrees counter-clockwise *)

Lemma cv2_rotate_ccw src :
  cv2_rotate src 2 = Some (cv2_flip (cv2_transpose src) 0).
Proof. reflexivity. Qed.

Lemma cv2_rotate_ccw_shape src rot :
  cv2_rotate src 2 = Some rot →
  n_rows rot = n_cols src ∧ n_cols rot = n_rows src.
Proof. rewrite cv2_rotate_ccw. by intros [= <-]. Qed.

Lemma cv2_rotate_ccw_owned src rot :
  wf src → cv2_rotate src 2 = Some rot → owned rot.
Proof.
  rewrite cv2_rotate_ccw. intros Hwf [= <-].
  by apply cv2_flip_0_owned, owned_wf, cv2_transpose_owned.
Qed.

Lemma cv2_rotate_ccw_item src rot r c :
  wf src → cv2_rotate src 2 = Some rot → r < n_cols src →
  item rot r c = item src c (n_cols src - 1 - r).
Proof.
  rewrite cv2_rotate_ccw. intros Hwf [= <-] Hr.
  rewrite cv2_flip_0_item; [|by apply owned_wf, cv2_transpose_owned|done].
  by rewrite cv2_transpose_item.
Qed.

(** *** Slicing *)

Lemma getitem_wf a r1 r2 c1 c2 : wf a → wf (getitem a r1 r2 c1 c2).
Proof.
  intros [Hr Hc]. unfold getitem, slice_indices, wf; simpl. split; [lia|].
  eapply Forall_impl; [exact Hc|]. intros row Hrow; simpl in *. lia.
Qed.

(** Pixel [(i, j)] of a slice is pixel [(r1 + i, c1 + j)] of the array. *)
Lemma getitem_item a r1 r2 c1 c2 i j :
  r1 ≤ r2 ≤ n_rows a → c1 ≤ c2 ≤ n_cols a →
  i < r2 - r1 → j < c2 - c1 →
  item (getitem a r1 r2 c1 c2) i j = item a (r1 + i) (c1 + j).
Proof.
  intros Hr Hc Hi Hj. unfold getitem, slice_indices, item; simpl.
  rewrite !decide_True by lia.
  by rewrite !(Nat.min_l r1), !(Nat.min_l c1), !Nat.add_assoc by lia.
Qed.

(** *** Resizing *)

Section resize.
Variable INTER_LINEAR : ndarray A → nat → nat → nat → nat → A.

Lemma cv2_resize_Some src width height img :
  cv2_resize INTER_LINEAR src (width, height) = Some img →
  (0 < width)%Z ∧ (0 < height)%Z ∧ 0 < n_rows src ∧ 0 < n_cols src ∧
  n_rows img = Z.to_nat height ∧ n_cols img = Z.to_nat width ∧ owned img.
Proof.
  unfold cv2_resize. repeat case_decide; try done. intros [= <-].
  unfold owned, of_rows; simpl.
  split_and!; try done; try lia.
  - by rewrite length_fmap, length_seq.
  - apply Forall_fmap, Forall_forall. intros r _; simpl.
    by rewrite length_fmap, length_seq.
Qed.

Lemma cv2_resize_is_Some src width height :
  (0 < width)%Z → (0 < height)%Z → 0 < n_rows src → 0 < n_cols src →
  is_Some (cv2_resize INTER_LINEAR src (width, height)).
Proof. intros. unfold cv2_resize. by rewrite !decide_True. Qed.
End resize.

End ndarray_facts.

(** ** The quad-view splitter *)

Section splitter.
Context {A : Type}.
Variable INTER_LINEAR : ndarray A → nat → nat → nat → nat → A.
Implicit Types (frame img rot ch : ndarray A) (W H : Z).

Local Abbreviation split := (rotate_and_split_into_channels INTER_LINEAR).
Local Abbreviation rotated := (rotated_frame INTER_LINEAR).

(** The function returns exactly when OpenCV accepts the resize. *)
Lemma split_Some_inv frame W H chs :
  split frame W H = Some chs → resizable frame W H.
Proof.
  unfold rotate_and_split_into_channels.
  destruct (cv2_resize _ frame (W, H)) as [img|] eqn:Himg; [|done].
  intros _. apply cv2_resize_Some in Himg. unfold resizable. tauto.
Qed.

(** What the function computes, step by step. *)
Lemma split_unfold frame W H :
  resizable frame W H →
  ∃ img rot,
    cv2_resize INTER_LINEAR frame (W, H) = Some img ∧
    cv2_rotate img 2 = Some rot ∧
    rotated frame W H = Some rot ∧
    owned img ∧ owned rot ∧
    shape img = (Z.to_nat H, Z.to_nat W) ∧
    shape rot = (Z.to_nat W, Z.to_nat H) ∧
    let h := n_rows rot in
    let w := n_cols rot in
    split frame W H =
      Some [getitem rot (h `div` 2) h 0 (w `div` 2);
            getitem rot 0 (h `div` 2) 0 (w `div` 2);
            getitem rot (h `div` 2) h (w `div` 2) w;
            getitem rot 0 (h `div` 2) (w `div` 2) w].
Proof.
  intros (HW & HH & Hr & Hc).
  destruct (cv2_resize_is_Some INTER_LINEAR frame W H) as [img Himg];
    [done..|].
  pose proof (cv2_resize_Some _ _ _ _ _ Himg)
    as (_ & _ & _ & _ & Hh & Hw & Hown).
  pose proof (cv2_rotate_ccw img) as Hrot.
  set (rot := cv2_flip (cv2_transpose img) 0) in Hrot.
  pose proof (cv2_rotate_ccw_shape _ _ Hrot) as [Hrh Hrw].
  exists img, rot. unfold rotated_frame, rotate_and_split_into_channels.
  rewrite Himg; simpl option_bind. rewrite Hrot.
  split_and!; try done.
  - by eapply cv2_rotate_ccw_owned; [apply owned_wf|].
  - unfold shape. by rewrite Hh, Hw.
  - unfold shape. by rewrite Hrh, Hrw, Hh, Hw.
Qed.

Lemma getitem_is_region rot r1 r2 c1 c2 :
  wf rot → r1 ≤ r2 ≤ n_rows rot → c1 ≤ c2 ≤ n_cols rot →
  is_region rot (getitem rot r1 r2 c1 c2) r1 r2 c1 c2.
Proof.
  intros Hwf Hr Hc. unfold is_region. split_and!.
  - done.
  - unfold getitem, slice_indices; simpl. lia.
  - unfold getitem, slice_indices; simpl. lia.
  - unfold getitem, slice_indices, shape; simpl. f_equal; lia.
  - intros i j Hi Hj. rewrite getitem_item by done.
    split; [|done]. apply item_Some_wf; [done|lia..].
Qed.

(** C3, as amended: for a frame that is not empty and a target of positive
    width and height, which is what the resize accepts, the function
    returns the four sub-frames in the order [ch1; ch2; ch3; ch4], where
    [ch1] is the bottom-left region of the rotated frame (rows from the
    half height on, columns up to the half width), [ch2] the top-left,
    [ch3] the bottom-right and [ch4] the top-right, whatever the size. *)
Theorem quadrant_order frame W H :
  resizable frame W H →
  ∃ rot chs,
    rotated frame W H = Some rot ∧
    split frame W H = Some chs ∧
    quadrant_layout rot chs.
Proof.
  intros Hok.
  destruct (split_unfold _ _ _ Hok)
    as (img & rot & _ & _ & Hrot & _ & Hown & _ & _ & Hsplit).
  cbv zeta in Hsplit. eexists rot, _. split_and!; [done..|].
  apply owned_wf in Hown.
  pose proof (Nat.Div0.div_le_upper_bound (n_rows rot) 2 (n_rows rot)).
  pose proof (Nat.Div0.div_le_upper_bound (n_cols rot) 2 (n_cols rot)).
  eexists _, _, _, _. split; [done|].
  split_and!; apply getitem_is_region; try done; lia.
Qed.

Lemma split_unfold_shapes frame W H :
  resizable frame W H →
  ∃ rot chs,
    rotated frame W H = Some rot ∧
    split frame W H = Some chs ∧
    shape rot = (Z.to_nat W, Z.to_nat H) ∧
    let h := n_rows rot in
    let w := n_cols rot in
    shape <$> chs = [(h - h `div` 2, w `div` 2); (h `div` 2, w `div` 2);
                     (h - h `div` 2, w - w `div` 2);
                     (h `div` 2, w - w `div` 2)].
Proof.
  intros Hok.
  destruct (split_unfold _ _ _ Hok)
    as (img & rot & _ & _ & Hrot & _ & _ & _ & Hshape & Hsplit).
  cbv zeta in Hsplit. eexists rot, _. split_and!; [done..|].
  pose proof (Nat.Div0.div_le_upper_bound (n_rows rot) 2 (n_rows rot)).
  pose proof (Nat.Div0.div_le_upper_bound (n_cols rot) 2 (n_cols rot)).
  cbv zeta.
  set (h2 := n_rows rot `div` 2) in *.
  set (w2 := n_cols rot `div` 2) in *.
  unfold getitem, slice_indices, shape; simpl.
  repeat f_equal; lia.
Qed.

Lemma quadrant_sizes_of_shapes rot (chs : list (ndarray A)) :
  (let h := n_rows rot in
   let w := n_cols rot in
   shape <$> chs = [(h - h `div` 2, w `div` 2); (h `div` 2, w `div` 2);
                    (h - h `div` 2, w - w `div` 2);
                    (h `div` 2, w - w `div` 2)]) →
  quadrant_sizes rot chs.
Proof.
  unfold quadrant_sizes, floor_sized. cbv zeta.
  pose proof (Nat.div_mod_eq (n_rows rot) 2) as Hh.
  pose proof (Nat.div_mod_eq (n_cols rot) 2) as Hw.
  pose proof (Nat.mod_upper_bound (n_rows rot) 2).
  pose proof (Nat.mod_upper_bound (n_cols rot) 2).
  set (h2 := n_rows rot `div` 2) in *.
  set (w2 := n_cols rot `div` 2) in *.
  clearbody h2 w2. intros Hshapes.
  destruct chs as [|ch1 [|ch2 [|ch3 [|ch4 [|]]]]]; try done.
  unfold shape in Hshapes. cbn [fmap list_fmap] in Hshapes.
  injection Hshapes as H1r H1c H2r H2c H3r H3c H4r H4c.
  split_and!.
  - unfold shape; simpl. by rewrite H1r, H1c, H2r, H2c, H3r, H3c, H4r, H4c.
  - unfold area; simpl. rewrite H1r, H1c, H2r, H2c, H3r, H3c, H4r, H4c. nia.
  - intros Hhe Hwe. split.
    + repeat constructor; unfold shape; f_equal; lia.
    + unfold area; simpl.
      rewrite H1r, H1c, H2r, H2c, H3r, H3c, H4r, H4c. nia.
Qed.

(** C2: the four quadrants are rectangles of the rotated frame that do not
    overlap and leave no gap: each lies inside the frame, and every pixel
    (r, c) with r < H_rot and c < W_rot belongs to exactly one of them. *)
Theorem quadrants_disjoint_cover frame W H :
  resizable frame W H →
  ∃ rot chs,
    rotated frame W H = Some rot ∧
    split frame W H = Some chs ∧
    quadrants_partition rot chs.
Proof.
  intros Hok.
  destruct (split_unfold _ _ _ Hok)
    as (img & rot & _ & _ & Hrot & _ & Hown & _ & _ & Hsplit).
  cbv zeta in Hsplit. eexists rot, _. split_and!; [done..|].
  destruct Hown as (Hr0 & Hc0 & _ & _).
  pose proof (Nat.Div0.div_le_upper_bound (n_rows rot) 2 (n_rows rot)).
  pose proof (Nat.Div0.div_le_upper_bound (n_cols rot) 2 (n_cols rot)).
  set (h2 := n_rows rot `div` 2) in *.
  set (w2 := n_cols rot `div` 2) in *.
  unfold quadrants_partition. split_and!.
  - done.
  - repeat constructor; unfold getitem, slice_indices; simpl; lia.
  - intros r c Hr Hc.
    assert (∀ k ch,
      [getitem rot h2 (n_rows rot) 0 w2; getitem rot 0 h2 0 w2;
       getitem rot h2 (n_rows rot) w2 (n_cols rot);
       getitem rot 0 h2 w2 (n_cols rot)] !! k = Some ch →
      covers ch r c = true →
      k = (if decide (r < h2) then 1 else 0)
          + (if decide (c < w2) then 0 else 2)) as Huniq.
    { intros k ch Hk Hcov. apply bool_decide_eq_true in Hcov.
      destruct k as [|[|[|[|k]]]]; simpl in Hk; try done;
        injection Hk as <-;
        unfold getitem, slice_indices in Hcov; simpl in Hcov;
        repeat case_decide; lia. }
    destruct (decide (r < h2)), (decide (c < w2)).
    + exists 1, (getitem rot 0 h2 0 w2). split_and!; [done| |done].
      apply bool_decide_eq_true.
      unfold getitem, slice_indices; simpl; lia.
    + exists 3, (getitem rot 0 h2 w2 (n_cols rot)). split_and!; [done| |done].
      apply bool_decide_eq_true.
      unfold getitem, slice_indices; simpl; lia.
    + exists 0, (getitem rot h2 (n_rows rot) 0 w2). split_and!; [done| |done].
      apply bool_decide_eq_true.
      unfold getitem, slice_indices; simpl; lia.
    + exists 2, (getitem rot h2 (n_rows rot) w2 (n_cols rot)).
      split_and!; [done| |done].
      apply bool_decide_eq_true.
      unfold getitem, slice_indices; simpl; lia.
Qed.

(** What is left of [n] after its rounded-down half is the half rounded
    up. *)
Lemma half_up (n : nat) : n - n `div` 2 = (n + 1) `div` 2.
Proof.
  pose proof (Nat.div_mod_eq n 2) as Hn.
  pose proof (Nat.mod_upper_bound n 2 ltac:(lia)) as Hm.
  destruct (decide (n `mod` 2 = 0)) as [E|E].
  - replace (n + 1) with (1 + n `div` 2 * 2) by lia.
    rewrite Nat.div_add by lia. change (1 `div` 2) with 0. lia.
  - replace (n + 1) with (0 + (n `div` 2 + 1) * 2) by lia.
    rewrite Nat.div_add by lia. change (0 `div` 2) with 0. lia.
Qed.

Lemma split_ceil_sized frame W H :
  resizable frame W H →
  ∃ rot chs,
    rotated frame W H = Some rot ∧
    split frame W H = Some chs ∧
    shape rot = (Z.to_nat W, Z.to_nat H) ∧
    ceil_sized (Z.to_nat W) (Z.to_nat H) chs.
Proof.
  intros Hok.
  destruct (split_unfold_shapes _ _ _ Hok)
    as (rot & chs & Hrot & Hsplit & Hshape & Hshapes).
  exists rot, chs. split_and!; [done..|].
  cbv zeta in Hshapes. unfold ceil_sized. rewrite Hshapes.
  assert (n_rows rot = Z.to_nat W ∧ n_cols rot = Z.to_nat H) as [-> ->]
    by (by split; [apply (f_equal fst Hshape)|apply (f_equal snd Hshape)]).
  by rewrite !half_up.
Qed.



End splitter.

Lemma quadrant_order_witness :
  resizable sample_frame 5 4 ∧
  ∃ rot chs,
    rotated_frame (INTER_NEAREST 0) sample_frame 5 4 = Some rot ∧
    rotate_and_split_into_channels (INTER_NEAREST 0) sample_frame 5 4
      = Some chs ∧
    quadrant_layout rot chs.
Proof.
  assert (resizable sample_frame 5 4) as Hok
    by (unfold resizable; simpl; lia).
  split; [exact Hok|].
  exact (quadrant_order (INTER_NEAREST 0) sample_frame 5 4 Hok).
Defined.

(** C1 as it is written fails on a 3 x 2 target: the rotated frame has three
    rows and two columns, channels 1 and 3 have two rows where floor(3/2) is
    one, and the areas add up to 6, not to 4. *)
Lemma floor_sized_counterexample :
  ∃ rot chs,
    rotated_frame (INTER_NEAREST 0) sample_frame 3 2 = Some rot ∧
    rotate_and_split_into_channels (INTER_NEAREST 0) sample_frame 3 2
      = Some chs ∧
    ¬ Forall (λ ch, shape ch = (n_rows rot `div` 2, n_cols rot `div` 2)) chs ∧
    sum_list (area <$> chs)
      ≠ (n_cols rot `div` 2 * 2) * (n_rows rot `div` 2 * 2) ∧
    ¬ floor_sized rot chs.
Proof.
  eexists _, _. split; [reflexivity|]. split; [reflexivity|].
  assert (∀ P : ndarray nat → Prop, ∀ chs ch,
            chs !! 0 = Some ch → ¬ P ch → ¬ Forall P chs) as Hhead.
  { intros P chs ch Hch Hn HF. by eapply Hn, Forall_lookup_1. }
  split_and!.
  - eapply Hhead; [reflexivity|]. by vm_compute.
  - by vm_compute.
  - intros [HF _]. revert HF. eapply Hhead; [reflexivity|]. by vm_compute.
Qed.

Lemma quadrants_disjoint_cover_witness :
  resizable sample_frame 5 4 ∧
  ∃ rot chs,
    rotated_frame (INTER_NEAREST 0) sample_frame 5 4 = Some rot ∧
    rotate_and_split_into_channels (INTER_NEAREST 0) sample_frame 5 4
      = Some chs ∧
    quadrants_partition rot chs.
Proof.
  assert (resizable sample_frame 5 4) as Hok
    by (unfold resizable; simpl; lia).
  split; [exact Hok|].
  exact (quadrants_disjoint_cover (INTER_NEAREST 0) sample_frame 5 4 Hok).
Defined.



(** ** More on the splitter *)

Section splitter_more.
Context {A : Type}.
Variable INTER_LINEAR : ndarray A → nat → nat → nat → nat → A.
Implicit Types (frame img rot ch : ndarray A) (W H : Z).

Local Abbreviation split := (rotate_and_split_into_channels INTER_LINEAR).

(** A region of the rotated frame, seen on the frame before rotation. *)
Lemma region_of_rotated img rot ch a b c d c1 c2 :
  wf img → cv2_rotate img 2 = Some rot →
  a ≤ b ≤ n_cols img → c ≤ d →
  c1 = n_cols img - b → c2 = n_cols img - a →
  is_region rot ch a b c d →
  is_turned_region img ch c d c1 c2.
Proof.
  intros Hwf Hrot Hab Hcd -> -> (_ & _ & _ & Hshape & Hitem).
  split.
  - rewrite Hshape. f_equal. lia.
  - intros i j Hi Hj.
    destruct (Hitem i j) as [Hsome ->]; [lia|lia|].
    destruct (Hitem i j) as [Hsome' Heq]; [lia|lia|].
    rewrite Heq in Hsome'. split; [done|].
    rewrite (cv2_rotate_ccw_item img rot) by (done || lia).
    f_equal. lia.
Qed.

(** X1. Each channel shows one quarter of the resized frame, turned: [ch1]
    its top-left part, [ch2] its top-right, [ch3] its bottom-left and
    [ch4] its bottom-right, as the docstring says. *)
Theorem channels_of_resized_frame frame W H :
  resizable frame W H →
  ∃ img chs,
    cv2_resize INTER_LINEAR frame (W, H) = Some img ∧
    split frame W H = Some chs ∧
    source_layout img chs.
Proof.
  intros Hok.
  destruct (split_unfold INTER_LINEAR _ _ _ Hok)
    as (img & rot & Himg & Hrot & _ & Himgo & Hown & Hsi & Hsr & Hsplit).
  cbv zeta in Hsplit. eexists img, _. split_and!; [done..|].
  assert (n_rows rot = n_cols img ∧ n_cols rot = n_rows img) as [Hh Hw].
  { apply cv2_rotate_ccw_shape in Hrot. tauto. }
  apply owned_wf in Hown, Himgo.
  pose proof (Nat.Div0.div_le_upper_bound (n_rows rot) 2 (n_rows rot)).
  pose proof (Nat.Div0.div_le_upper_bound (n_cols rot) 2 (n_cols rot)).
  unfold source_layout. cbv zeta. rewrite <-Hh, <-Hw.
  eexists _, _, _, _. split; [done|].
  split_and!;
    (eapply region_of_rotated;
     [exact Himgo|exact Hrot| | | |
      |apply getitem_is_region; [exact Hown|lia|lia]]; lia).
Qed.

Lemma to_nat_even (n : Z) :
  (0 < n)%Z → Z.to_nat n `mod` 2 = 0 ↔ (n `mod` 2 = 0)%Z.
Proof.
  intros Hn. rewrite <-(Z2Nat.id n) at 2 by lia.
  change 2%Z with (Z.of_nat 2). rewrite <-Nat2Z.inj_mod. lia.
Qed.

(** The shapes of the four channels, with the two halves of each rotated
    dimension named. *)
Lemma split_shapes_halves frame W H :
  resizable frame W H →
  ∃ ch1 ch2 ch3 ch4 h2 w2 hm wm,
    split frame W H = Some [ch1; ch2; ch3; ch4] ∧
    Z.to_nat W = 2 * h2 + hm ∧ hm = Z.to_nat W `mod` 2 ∧ hm < 2 ∧
    Z.to_nat H = 2 * w2 + wm ∧ wm = Z.to_nat H `mod` 2 ∧ wm < 2 ∧
    shape ch1 = (h2 + hm, w2) ∧ shape ch2 = (h2, w2) ∧
    shape ch3 = (h2 + hm, w2 + wm) ∧ shape ch4 = (h2, w2 + wm).
Proof.
  intros Hok.
  destruct (split_unfold_shapes INTER_LINEAR _ _ _ Hok)
    as (rot & chs & _ & Hsplit & Hshape & Hshapes).
  cbv zeta in Hshapes.
  assert (n_rows rot = Z.to_nat W ∧ n_cols rot = Z.to_nat H) as [Hr Hc]
    by (by split; [apply (f_equal fst Hshape)|apply (f_equal snd Hshape)]).
  rewrite Hr, Hc in Hshapes.
  pose proof (Nat.div_mod_eq (Z.to_nat W) 2) as Hh.
  pose proof (Nat.div_mod_eq (Z.to_nat H) 2) as Hw.
  pose proof (Nat.mod_upper_bound (Z.to_nat W) 2 ltac:(lia)).
  pose proof (Nat.mod_upper_bound (Z.to_nat H) 2 ltac:(lia)).
  set (h2 := Z.to_nat W `div` 2) in *.
  set (w2 := Z.to_nat H `div` 2) in *.
  clearbody h2 w2.
  destruct chs as [|ch1 [|ch2 [|ch3 [|ch4 [|]]]]]; try done.
  unfold shape in Hshapes. cbn [fmap list_fmap] in Hshapes.
  injection Hshapes as H1r H1c H2r H2c H3r H3c H4r H4c.
  exists ch1, ch2, ch3, ch4, h2, w2, (Z.to_nat W `mod` 2),
    (Z.to_nat H `mod` 2).
  unfold shape. rewrite H1r, H1c, H2r, H2c, H3r, H3c, H4r, H4c.
  split_and!; try done; f_equal; lia.
Qed.

(** X2. The four channels have one and the same shape exactly when the
    target width and the target height are both even. *)
Theorem channels_equal_iff_even frame W H :
  resizable frame W H →
  ∃ chs,
    split frame W H = Some chs ∧
    ((∀ ch ch', ch ∈ chs → ch' ∈ chs → shape ch = shape ch') ↔
     (W `mod` 2 = 0 ∧ H `mod` 2 = 0)%Z).
Proof.
  intros Hok.
  destruct (split_shapes_halves _ _ _ Hok)
    as (ch1 & ch2 & ch3 & ch4 & h2 & w2 & hm & wm & Hsplit
        & Hh & Hhm & ? & Hw & Hwm & ? & S1 & S2 & S3 & S4).
  destruct Hok as (HW & HH & _).
  eexists. split; [done|].
  rewrite <-!to_nat_even by done. rewrite <-Hhm, <-Hwm. split.
  - intros Hall.
    assert (shape ch1 = shape ch2) as E12
      by (apply Hall; repeat constructor).
    assert (shape ch2 = shape ch4) as E24
      by (apply Hall; repeat constructor).
    rewrite S1, S2 in E12. rewrite S2, S4 in E24.
    injection E12 as E12. injection E24 as E24. lia.
  - intros [-> ->] ch ch' Hch Hch'.
    rewrite !Nat.add_0_r in *.
    assert (∀ c, c ∈ [ch1; ch2; ch3; ch4] → shape c = (h2, w2)) as Hone.
    { intros c Hc.
      repeat (apply elem_of_cons in Hc as [->|Hc]; [done|]).
      by apply elem_of_nil in Hc. }
    by rewrite !Hone.
Qed.

(** X3. No channel is empty exactly when the target is at least two pixels
    wide and two pixels high; a target of width 1 or height 1 gives
    channels without rows or without columns. *)
Theorem channels_nonempty_iff frame W H :
  resizable frame W H →
  ∃ chs,
    split frame W H = Some chs ∧
    (Forall (λ ch, 0 < n_rows ch ∧ 0 < n_cols ch) chs ↔
     (2 ≤ W ∧ 2 ≤ H)%Z).
Proof.
  intros Hok.
  destruct (split_shapes_halves _ _ _ Hok)
    as (ch1 & ch2 & ch3 & ch4 & h2 & w2 & hm & wm & Hsplit
        & Hh & Hhm & ? & Hw & Hwm & ? & S1 & S2 & S3 & S4).
  destruct Hok as (HW & HH & _).
  eexists. split; [done|].
  injection S1 as R1 C1. injection S2 as R2 C2.
  injection S3 as R3 C3. injection S4 as R4 C4.
  split.
  - intros Hall.
    apply Forall_cons_1 in Hall as [_ Hall].
    apply Forall_cons_1 in Hall as [[? ?] _]. lia.
  - intros [? ?]. repeat constructor; lia.
Qed.

End splitter_more.

Lemma channels_of_resized_frame_witness :
  resizable sample_frame 5 4 ∧
  ∃ img chs,
    cv2_resize (INTER_NEAREST 0) sample_frame (5, 4)%Z = Some img ∧
    rotate_and_split_into_channels (INTER_NEAREST 0) sample_frame 5 4
      = Some chs ∧
    source_layout img chs.
Proof.
  assert (resizable sample_frame 5 4) as Hok
    by (unfold resizable; simpl; lia).
  split; [exact Hok|].
  exact (channels_of_resized_frame (INTER_NEAREST 0) sample_frame 5 4 Hok).
Defined.

Lemma channels_equal_iff_even_witness :
  resizable sample_frame 4 6 ∧
  ∃ chs,
    rotate_and_split_into_channels (INTER_NEAREST 0) sample_frame 4 6
      = Some chs ∧
    ((∀ ch ch', ch ∈ chs → ch' ∈ chs → shape ch = shape ch') ↔
     (4 `mod` 2 = 0 ∧ 6 `mod` 2 = 0)%Z).
Proof.
  assert (resizable sample_frame 4 6) as Hok
    by (unfold resizable; simpl; lia).
  split; [exact Hok|].
  exact (channels_equal_iff_even (INTER_NEAREST 0) sample_frame 4 6 Hok).
Defined.

Lemma channels_nonempty_iff_witness :
  resizable sample_frame 1 6 ∧
  ∃ chs,
    rotate_and_split_into_channels (INTER_NEAREST 0) sample_frame 1 6
      = Some chs ∧
    (Forall (λ ch, 0 < n_rows ch ∧ 0 < n_cols ch) chs ↔ (2 ≤ 1 ∧ 2 ≤ 6)%Z).
Proof.
  assert (resizable sample_frame 1 6) as Hok
    by (unfold resizable; simpl; lia).
  split; [exact Hok|].
  exact (channels_nonempty_iff (INTER_NEAREST 0) sample_frame 1 6 Hok).
Defined.

(** ** The splitter: sizes, rotation and resizing together *)

Section splitter_all.
Context {A : Type}.
Variable INTER_LINEAR : ndarray A → nat → nat → nat → nat → A.
Implicit Types (frame img rot ch : ndarray A) (W H : Z).

Local Abbreviation split := (rotate_and_split_into_channels INTER_LINEAR).
Local Abbreviation rotated := (rotated_frame INTER_LINEAR).

(** The four slices of lines 41-44. *)
Local Abbreviation slices := (λ rot,
  [getitem rot (n_rows rot `div` 2) (n_rows rot) 0 (n_cols rot `div` 2);
   getitem rot 0 (n_rows rot `div` 2) 0 (n_cols rot `div` 2);
   getitem rot (n_rows rot `div` 2) (n_rows rot)
     (n_cols rot `div` 2) (n_cols rot);
   getitem rot 0 (n_rows rot `div` 2) (n_cols rot `div` 2) (n_cols rot)]).

Lemma slices_layout rot : wf rot → quadrant_layout rot (slices rot).
Proof.
  intros Hwf.
  pose proof (Nat.Div0.div_le_upper_bound (n_rows rot) 2 (n_rows rot)).
  pose proof (Nat.Div0.div_le_upper_bound (n_cols rot) 2 (n_cols rot)).
  eexists _, _, _, _. split; [done|].
  split_and!; apply getitem_is_region; try done; lia.
Qed.

Lemma slices_partition rot : owned rot → quadrants_partition rot (slices rot).
Proof.
  intros (Hr0 & Hc0 & _ & _).
  pose proof (Nat.Div0.div_le_upper_bound (n_rows rot) 2 (n_rows rot)).
  pose proof (Nat.Div0.div_le_upper_bound (n_cols rot) 2 (n_cols rot)).
  set (h2 := n_rows rot `div` 2) in *.
  set (w2 := n_cols rot `div` 2) in *.
  split_and!.
  - done.
  - repeat constructor; unfold getitem, slice_indices; simpl; lia.
  - intros r c Hr Hc.
    assert (∀ k ch,
      [getitem rot h2 (n_rows rot) 0 w2; getitem rot 0 h2 0 w2;
       getitem rot h2 (n_rows rot) w2 (n_cols rot);
       getitem rot 0 h2 w2 (n_cols rot)] !! k = Some ch →
      covers ch r c = true →
      k = (if decide (r < h2) then 1 else 0)
          + (if decide (c < w2) then 0 else 2)) as Huniq.
    { intros k ch Hk Hcov. apply bool_decide_eq_true in Hcov.
      destruct k as [|[|[|[|k]]]]; simpl in Hk; try done;
        injection Hk as <-;
        unfold getitem, slice_indices in Hcov; simpl in Hcov;
        repeat case_decide; lia. }
    destruct (decide (r < h2)), (decide (c < w2));
      [exists 1, (getitem rot 0 h2 0 w2)
      |exists 3, (getitem rot 0 h2 w2 (n_cols rot))
      |exists 0, (getitem rot h2 (n_rows rot) 0 w2)
      |exists 2, (getitem rot h2 (n_rows rot) w2 (n_cols rot))];
      (split_and!; [done| |done]);
      apply bool_decide_eq_true;
      unfold getitem, slice_indices; simpl; lia.
Qed.

Lemma slices_source img rot :
  wf img → wf rot → cv2_rotate img 2 = Some rot →
  source_layout img (slices rot).
Proof.
  intros Himg Hwf Hrot.
  assert (n_rows rot = n_cols img ∧ n_cols rot = n_rows img) as [Hh Hw]
    by (by apply cv2_rotate_ccw_shape in Hrot).
  pose proof (Nat.Div0.div_le_upper_bound (n_rows rot) 2 (n_rows rot)).
  pose proof (Nat.Div0.div_le_upper_bound (n_cols rot) 2 (n_cols rot)).
  unfold source_layout. cbv zeta. rewrite <-Hh, <-Hw.
  eexists _, _, _, _. split; [done|].
  split_and!;
    (eapply region_of_rotated;
     [exact Himg|exact Hrot| | | |
      |apply getitem_is_region; [exact Hwf|lia|lia]]; lia).
Qed.

(** The pixels of a resized frame are the samples of the source. *)
Lemma cv2_resize_item src width height img r c :
  cv2_resize INTER_LINEAR src (width, height) = Some img →
  r < Z.to_nat height → c < Z.to_nat width →
  item img r c
  = Some (INTER_LINEAR src (Z.to_nat height) (Z.to_nat width) r c).
Proof.
  unfold cv2_resize. repeat case_decide; try done. intros [= <-] Hr Hc.
  unfold item, of_rows; simpl. rewrite decide_True by done.
  rewrite list_lookup_fmap, lookup_seq_lt by done. simpl.
  by rewrite list_lookup_fmap, lookup_seq_lt by done.
Qed.

(** All that is known of a call that returns. *)
Lemma split_facts frame W H :
  resizable frame W H →
  ∃ img rot chs,
    cv2_resize INTER_LINEAR frame (W, H) = Some img ∧
    rotated frame W H = Some rot ∧
    split frame W H = Some chs ∧
    shape img = (Z.to_nat H, Z.to_nat W) ∧
    shape rot = (Z.to_nat W, Z.to_nat H) ∧
    turned_ccw img rot ∧
    quadrant_layout rot chs ∧
    quadrants_partition rot chs ∧
    quadrant_sizes rot chs ∧
    ceil_sized (Z.to_nat W) (Z.to_nat H) chs ∧
    source_layout img chs.
Proof.
  intros Hok.
  destruct (split_unfold INTER_LINEAR _ _ _ Hok)
    as (img & rot & Himg & Hrot & Hrotated & Himgo & Hown & Hsi & Hsr
        & Hsplit).
  cbv zeta in Hsplit.
  destruct (split_unfold_shapes INTER_LINEAR _ _ _ Hok)
    as (rot' & chs' & Hrotated' & Hsplit' & _ & Hshapes).
  destruct (split_ceil_sized INTER_LINEAR _ _ _ Hok)
    as (_ & chs'' & _ & Hsplit'' & _ & Hceil).
  assert (rot' = rot) as -> by congruence.
  assert (chs' = slices rot) as -> by congruence.
  assert (chs'' = slices rot) as -> by congruence.
  exists img, rot, (slices rot).
  assert (n_rows img = Z.to_nat H ∧ n_cols img = Z.to_nat W) as [Hih Hiw]
    by (by split; [apply (f_equal fst Hsi)|apply (f_equal snd Hsi)]).
  assert (n_rows rot = Z.to_nat W ∧ n_cols rot = Z.to_nat H) as [Hrh Hrw]
    by (by split; [apply (f_equal fst Hsr)|apply (f_equal snd Hsr)]).
  split_and!; try done.
  - split_and!; [congruence..|].
    intros r c Hr Hc. split.
    + apply item_Some_wf; [by apply owned_wf|done..].
    + eapply cv2_rotate_ccw_item; [by apply owned_wf|done|lia].
  - by apply slices_layout, owned_wf.
  - by apply slices_partition.
  - by apply quadrant_sizes_of_shapes.
  - apply slices_source; [by apply owned_wf..|done].
Qed.

(** C1, as amended: channels 2 and 4 have floor(H_rot/2) rows and channels 1
    and 3 the remaining H_rot - floor(H_rot/2); channels 1 and 2 have
    floor(W_rot/2) columns and channels 3 and 4 the remaining
    W_rot - floor(W_rot/2).  No row or column is left out: every pixel of
    the rotated frame lies in exactly one quadrant, the areas add up to
    W_rot * H_rot, and all four quadrants have floor(H_rot/2) rows and
    floor(W_rot/2) columns when both rotated dimensions are even. *)
Theorem quadrant_sizes_cover frame W H :
  resizable frame W H →
  ∃ rot chs,
    rotated frame W H = Some rot ∧
    split frame W H = Some chs ∧
    quadrant_sizes rot chs ∧
    quadrant_layout rot chs ∧
    quadrants_partition rot chs.
Proof.
  intros Hok.
  destruct (split_facts _ _ _ Hok)
    as (img & rot & chs & _ & Hrot & Hsplit & _ & _ & _ & Hlay & Hpart
        & Hsizes & _).
  by exists rot, chs.
Qed.

(** C4: the function turns the resized W x H frame by 270 degrees
    clockwise, that is 90 degrees counter-clockwise, before it cuts it:
    the frame the four channels are cut from is H wide and W tall and its
    pixel (r, c) is pixel (c, W - 1 - r) of the resized frame, so that
    pixel (i, j) of a channel is pixel (r1 + j, c2 - 1 - i) of the part of
    the resized frame it shows. *)
Theorem rotation_step frame W H :
  resizable frame W H →
  ∃ img rot chs,
    cv2_resize INTER_LINEAR frame (W, H) = Some img ∧
    rotated frame W H = Some rot ∧
    split frame W H = Some chs ∧
    shape img = (Z.to_nat H, Z.to_nat W) ∧
    n_cols rot = Z.to_nat H ∧ n_rows rot = Z.to_nat W ∧
    turned_ccw img rot ∧
    quadrant_layout rot chs ∧
    source_layout img chs.
Proof.
  intros Hok.
  destruct (split_facts _ _ _ Hok)
    as (img & rot & chs & Himg & Hrot & Hsplit & Hsi & Hsr & Hturn & Hlay
        & _ & _ & _ & Hsrc).
  exists img, rot, chs.
  split_and!; try done.
  - exact (f_equal snd Hsr).
  - exact (f_equal fst Hsr).
Qed.

(** C10, as amended: a frame that is not empty is first resized to the
    positive target (IMAGE_WIDTH, IMAGE_HEIGHT) whatever its own size:
    the channels are cut from the samples of the frame at that size, so
    their shapes are given by the two arguments alone; and an odd rotated
    dimension is not cut: channels 1 and 3 have ceil(H_rot/2) rows and
    channels 2 and 4 floor(H_rot/2), channels 3 and 4 have ceil(W_rot/2)
    columns and channels 1 and 2 floor(W_rot/2), where H_rot is
    IMAGE_WIDTH and W_rot is IMAGE_HEIGHT. *)
Theorem quadrant_sizes_from_target frame W H :
  resizable frame W H →
  ∃ img chs,
    cv2_resize INTER_LINEAR frame (W, H) = Some img ∧
    shape img = (Z.to_nat H, Z.to_nat W) ∧
    (∀ r c, r < Z.to_nat H → c < Z.to_nat W →
       item img r c
       = Some (INTER_LINEAR frame (Z.to_nat H) (Z.to_nat W) r c)) ∧
    split frame W H = Some chs ∧
    source_layout img chs ∧
    ceil_sized (Z.to_nat W) (Z.to_nat H) chs ∧
    ∀ frame', resizable frame' W H →
      ∃ chs', split frame' W H = Some chs' ∧
              shape <$> chs' = shape <$> chs.
Proof.
  intros Hok.
  destruct (split_facts _ _ _ Hok)
    as (img & rot & chs & Himg & _ & Hsplit & Hsi & _ & _ & _ & _ & _
        & Hceil & Hsrc).
  exists img, chs. split_and!; try done.
  - intros r c Hr Hc. by apply cv2_resize_item.
  - intros frame' Hok'.
    destruct (split_ceil_sized INTER_LINEAR _ _ _ Hok')
      as (_ & chs' & _ & Hsplit' & _ & Hceil').
    exists chs'. split; [done|].
    unfold ceil_sized in *. congruence.
Qed.

End splitter_all.

Lemma quadrant_sizes_cover_witness :
  resizable sample_frame 3 2 ∧
  ∃ rot chs,
    rotated_frame (INTER_NEAREST 0) sample_frame 3 2 = Some rot ∧
    rotate_and_split_into_channels (INTER_NEAREST 0) sample_frame 3 2
      = Some chs ∧
    quadrant_sizes rot chs ∧
    quadrant_layout rot chs ∧
    quadrants_partition rot chs.
Proof.
  assert (resizable sample_frame 3 2) as Hok
    by (unfold resizable; simpl; lia).
  split; [exact Hok|].
  exact (quadrant_sizes_cover (INTER_NEAREST 0) sample_frame 3 2 Hok).
Defined.

Lemma rotation_step_witness :
  resizable sample_frame 3 2 ∧
  ∃ img rot chs,
    cv2_resize (INTER_NEAREST 0) sample_frame (3, 2)%Z = Some img ∧
    rotated_frame (INTER_NEAREST 0) sample_frame 3 2 = Some rot ∧
    rotate_and_split_into_channels (INTER_NEAREST 0) sample_frame 3 2
      = Some chs ∧
    shape img = (2, 3) ∧ n_cols rot = 2 ∧ n_rows rot = 3 ∧
    turned_ccw img rot ∧
    quadrant_layout rot chs ∧
    source_layout img chs.
Proof.
  assert (resizable sample_frame 3 2) as Hok
    by (unfold resizable; simpl; lia).
  split; [exact Hok|].
  exact (rotation_step (INTER_NEAREST 0) sample_frame 3 2 Hok).
Defined.

Lemma quadrant_sizes_from_target_witness :
  resizable sample_frame 3 5 ∧
  ∃ img chs,
    cv2_resize (INTER_NEAREST 0) sample_frame (3, 5)%Z = Some img ∧
    shape img = (5, 3) ∧
    (∀ r c, r < 5 → c < 3 →
       item img r c = Some (INTER_NEAREST 0 sample_frame 5 3 r c)) ∧
    rotate_and_split_into_channels (INTER_NEAREST 0) sample_frame 3 5
      = Some chs ∧
    source_layout img chs ∧
    ceil_sized 3 5 chs ∧
    ∀ frame', resizable frame' 3 5 →
      ∃ chs', rotate_and_split_into_channels (INTER_NEAREST 0) frame' 3 5
                = Some chs' ∧
              shape <$> chs' = shape <$> chs.
Proof.
  assert (resizable sample_frame 3 5) as Hok
    by (unfold resizable; simpl; lia).
  split; [exact Hok|].
  exact (quadrant_sizes_from_target (INTER_NEAREST 0) sample_frame 3 5 Hok).
Defined.

(** C3 as it is written fails on inputs the resize refuses: on a frame
    without rows, and on a target of width 0, the function ends in
    cv2.error and returns no sub-frame. *)
Lemma quadrant_order_counterexample :
  (¬ ∃ chs, rotate_and_split_into_channels (INTER_NEAREST 0) empty_frame 4 6
            = Some chs) ∧
  (¬ ∃ chs, rotate_and_split_into_channels (INTER_NEAREST 0) sample_frame 0 6
            = Some chs).
Proof. split; by intros [chs Hchs]. Qed.

(** C10 as it is written fails: with one and the same target the outcome
    depends on the incoming frame's own size, for a frame without rows is
    refused by the resize where the sample frame gives four channels. *)
Lemma quadrant_sizes_from_target_counterexample :
  rotate_and_split_into_channels (INTER_NEAREST 0) empty_frame 4 6 = None ∧
  is_Some (rotate_and_split_into_channels (INTER_NEAREST 0) sample_frame 4 6).
Proof. split; [reflexivity|by eexists]. Qed.

(** ** The capture scripts *)

Section capture.
Context {A : Type}.
Variable videos : string → option (Video A).
Variable INTER_LINEAR : ndarray A → nat → nat → nat → nat → A.
Implicit Types (v : Video A) (cap : VideoCapture A) (n : Z).

Lemma out_of_range_test (n total_frames : Z) :
  (n >= total_frames ∨ n < 0)%Z →
  ((n >=? total_frames) || (n <? 0))%Z = true.
Proof. lia. Qed.

(** C7: with a channel other than 1, 2, 3 and 4,
    [capture_channel_from_frame] returns False and has made no call at all:
    the video is not opened, nothing is sought or read, and no exception is
    raised. *)
Theorem invalid_channel_rejected
    video_path frame_number channel output_path IMAGE_WIDTH IMAGE_HEIGHT :
  channel ∉ [1; 2; 3; 4]%Z →
  capture_channel_from_frame videos INTER_LINEAR video_path frame_number
    channel output_path IMAGE_WIDTH IMAGE_HEIGHT = (inr false, []).
Proof.
  intros Hch. unfold capture_channel_from_frame.
  by rewrite bool_decide_false.
Qed.

(** C8: on a video that opens and reports T frames, a frame number n with
    n >= T or n < 0 makes [capture_specific_frame] and
    [capture_channel_from_frame] return False; the only calls made are the
    opening of the video and the release of its handle, so nothing is
    sought or read.  (With a channel that is not valid the second function
    returns before it opens the video.) *)
Theorem out_of_range_frame_rejected
    video_path v frame_number output_path channel output_path'
    IMAGE_WIDTH IMAGE_HEIGHT :
  videos video_path = Some v →
  (frame_number >= CAP_PROP_FRAME_COUNT v ∨ frame_number < 0)%Z →
  capture_specific_frame videos video_path frame_number output_path
    = (inr false, [open_capture video_path; release_capture]) ∧
  capture_channel_from_frame videos INTER_LINEAR video_path frame_number
    channel output_path' IMAGE_WIDTH IMAGE_HEIGHT
    = (inr false,
       if bool_decide (channel ∈ [1; 2; 3; 4]%Z)
       then [open_capture video_path; release_capture] else []).
Proof.
  intros Hv Hn. apply out_of_range_test in Hn. split.
  - unfold capture_specific_frame, cv2_VideoCapture, isOpened, cap_get.
    cbn. rewrite Hv. cbn. by rewrite Hn.
  - unfold capture_channel_from_frame, cv2_VideoCapture, isOpened, cap_get.
    case_bool_decide; [|done].
    cbn. rewrite Hv. cbn. by rewrite Hn.
Qed.

Lemma written_images_app (l1 l2 : list (call A)) :
  written_images (l1 ++ l2) = written_images l1 ++ written_images l2.
Proof. apply omap_app. Qed.

(** The loop runs through the whole list, whatever happens at an index. *)
Lemma capture_each_spec v output_dir frame_numbers :
  ∀ cap, source cap = Some v →
    ∃ cap' log,
      capture_each cap (CAP_PROP_FRAME_COUNT v) output_dir frame_numbers
        = (inr cap', log) ∧
      source cap' = Some v ∧
      written_images log = expected_images v output_dir frame_numbers.
Proof.
  induction frame_numbers as [|n rest IH]; intros cap Hsrc.
  - by exists cap, [].
  - unfold expected_images, frame_at in *. cbn [capture_each omap list_omap].
    destruct ((n >=? CAP_PROP_FRAME_COUNT v) || (n <? 0))%Z eqn:Hn.
    + cbn. by apply IH.
    + unfold cap_set_pos, cap_read. cbn. rewrite Hsrc. cbn.
      destruct (mjoin (decoded v !! Z.to_nat n)) as [img|] eqn:Himg; cbn.
      * destruct (IH {| source := Some v; pos := S (Z.to_nat n) |} eq_refl)
          as (cap' & log & -> & Hsrc' & Hlog).
        eexists cap', _. split; [done|]. split; [done|].
        cbn. first [exact Hlog | f_equal; exact Hlog].
      * destruct (IH {| source := Some v; pos := Z.to_nat n |} eq_refl)
          as (cap' & log & -> & Hsrc' & Hlog).
        eexists cap', _. split; [done|]. split; [done|].
        cbn. first [exact Hlog | f_equal; exact Hlog].
Qed.

(** With an output directory that has a name, [capture_multiple_frames]
    goes through the whole list: a frame number that is out of range, or
    whose frame cannot be read, is passed over and the loop goes on.  The
    call returns normally, and the image files written are those of the
    numbers that are in range and whose frame is read, one each, in the
    order of the list. *)
Lemma capture_multiple_frames_skips
    video_path frame_numbers output_dir :
  output_dir ≠ EmptyString →
  ∃ log,
    capture_multiple_frames videos video_path frame_numbers output_dir
      = (inr (), log) ∧
    written_images log =
      match videos video_path with
      | Some v => expected_images v output_dir frame_numbers
      | None => []
      end.
Proof.
  intros Hdir.
  unfold capture_multiple_frames, os_makedirs, cv2_VideoCapture, isOpened,
    cap_get.
  rewrite bool_decide_false by done. cbn.
  destruct (videos video_path) as [v|] eqn:Hv; cbn.
  - destruct (capture_each_spec v output_dir frame_numbers
                {| source := Some v; pos := 0 |} eq_refl)
      as (cap' & log & -> & _ & Hlog).
    eexists. split; [done|].
    cbn. change (written_images (log ++ [release_capture]) =
                 expected_images v output_dir frame_numbers).
    by rewrite written_images_app, Hlog, app_nil_r.
  - by eexists.
Qed.


End capture.

Lemma invalid_channel_rejected_witness :
  (5 ∉ [1; 2; 3; 4])%Z ∧
  capture_channel_from_frame sample_files (INTER_NEAREST 0) "in.mp4" 0 5
    None None None = (inr false, []).
Proof.
  assert (5 ∉ [1; 2; 3; 4])%Z as Hch
    by (apply (bool_decide_eq_false_1 (5 ∈ [1; 2; 3; 4])%Z);
        vm_compute; reflexivity).
  split; [exact Hch|].
  exact (invalid_channel_rejected sample_files (INTER_NEAREST 0)
           "in.mp4" 0 5 None None None Hch).
Defined.

Lemma out_of_range_frame_rejected_witness :
  sample_files "in.mp4" = Some sample_video ∧
  (3 >= CAP_PROP_FRAME_COUNT sample_video ∨ 3 < 0)%Z ∧
  capture_specific_frame sample_files "in.mp4" 3 "captured_frame.jpg"
    = (inr false, [open_capture "in.mp4"; release_capture]) ∧
  capture_channel_from_frame sample_files (INTER_NEAREST 0) "in.mp4" 3 1
    None None None
    = (inr false,
       if bool_decide (1 ∈ [1; 2; 3; 4])%Z
       then [open_capture "in.mp4"; release_capture] else []).
Proof.
  assert (sample_files "in.mp4" = Some sample_video) as Hv by reflexivity.
  assert (3 >= CAP_PROP_FRAME_COUNT sample_video ∨ 3 < 0)%Z as Hn
    by (left; simpl; lia).
  split; [exact Hv|]. split; [exact Hn|].
  exact (out_of_range_frame_rejected sample_files (INTER_NEAREST 0)
           "in.mp4" sample_video 3 "captured_frame.jpg" 1 None None None
           Hv Hn).
Defined.

(** Of the requests 0, -1, 1, 7 and 2 on the sample video, -1 and 7 are out
    of range and frame 1 does not decode: the files of frames 0 and 2 are
    written. *)
Example capture_multiple_frames_sample :
  written_images
    (capture_multiple_frames sample_files "in.mp4" [0; -1; 1; 7; 2]%Z
       "frames").2
  = [("frames/frame_0000.jpg", sample_frame);
     ("frames/frame_0002.jpg", sample_frame)].
Proof. by vm_compute. Qed.

(** ** More on the capture scripts *)

Section capture_more.
Context {A : Type}.
Variable videos : string → option (Video A).
Variable INTER_LINEAR : ndarray A → nat → nat → nat → nat → A.
Implicit Types (v : Video A) (cap : VideoCapture A) (n : Z).

Lemma invalid_channel_lemma
    video_path frame_number channel output_path IMAGE_WIDTH IMAGE_HEIGHT :
  channel ∉ [1; 2; 3; 4]%Z →
  capture_channel_from_frame videos INTER_LINEAR video_path frame_number
    channel output_path IMAGE_WIDTH IMAGE_HEIGHT = (inr false, []).
Proof.
  intros Hch. unfold capture_channel_from_frame.
  by rewrite bool_decide_false.
Qed.

(** X4. [capture_specific_frame] returns True exactly when the video
    opens and the requested frame is in range and decodes; then one image
    is written, the decoded frame as it is, to [output_path]; otherwise it
    returns False and no image is written.  A handle that was opened is
    released by the last call. *)
Theorem capture_specific_frame_outcome video_path frame_number output_path :
  let found := videos video_path ≫= λ v, frame_at v frame_number in
  ∃ log,
    capture_specific_frame videos video_path frame_number output_path
      = (inr (bool_decide (is_Some found)), log) ∧
    written_images log =
      match found with
      | Some img => [(output_path, img)]
      | None => []
      end ∧
    match videos video_path with
    | Some _ => last log = Some release_capture
    | None => log = [open_capture video_path]
    end.
Proof.
  cbv zeta.
  unfold capture_specific_frame, cv2_VideoCapture, isOpened, cap_get,
    cap_set_pos, cap_read, cap_release, frame_at.
  cbn. destruct (videos video_path) as [v|]; cbn; [|by eexists].
  destruct ((frame_number >=? _) || _)%Z; cbn; [by eexists|].
  destruct (mjoin (decoded v !! Z.to_nat frame_number)) as [img|]; cbn;
    [|by eexists].
  case_bool_decide; cbn; by eexists.
Qed.

Lemma capture_each_calls v output_dir frame_numbers :
  ∀ cap, source cap = Some v →
    ∃ cap',
      capture_each cap (CAP_PROP_FRAME_COUNT v) output_dir frame_numbers
        = (inr cap', frame_numbers ≫= calls_for_frame v output_dir).
Proof.
  induction frame_numbers as [|n rest IH]; intros cap Hsrc.
  - by exists cap.
  - unfold calls_for_frame in *. cbn [capture_each mbind list_bind].
    destruct ((n >=? CAP_PROP_FRAME_COUNT v) || (n <? 0))%Z eqn:Hn.
    + cbn. by apply IH.
    + unfold cap_set_pos, cap_read. cbn. rewrite Hsrc. cbn.
      destruct (mjoin (decoded v !! Z.to_nat n)) as [img|] eqn:Himg; cbn.
      * destruct (IH {| source := Some v; pos := S (Z.to_nat n) |} eq_refl)
          as (cap' & ->).
        by exists cap'.
      * destruct (IH {| source := Some v; pos := Z.to_nat n |} eq_refl)
          as (cap' & ->).
        by exists cap'.
Qed.

(** X5. The calls of [capture_multiple_frames], in order.  With the empty
    name as output directory the call ends in FileNotFoundError at
    [os.makedirs] and no call is made.  Otherwise the output directory is
    made first, even if the video then does not open; a frame number that
    is out of range leads to no call; one that is in range leads to one
    seek to it and one read, and to the writing of its file when the read
    gives a frame; the handle of a video that opened is released last. *)
Theorem capture_multiple_frames_calls video_path frame_numbers output_dir :
  capture_multiple_frames videos video_path frame_numbers output_dir
  = if bool_decide (output_dir = EmptyString)
    then (inl FileNotFoundError, [])
    else
      (inr (),
       [makedirs output_dir; open_capture video_path] ++
       match videos video_path with
       | Some v => (frame_numbers ≫= calls_for_frame v output_dir)
                   ++ [release_capture]
       | None => []
       end).
Proof.
  unfold capture_multiple_frames, os_makedirs, cv2_VideoCapture, isOpened,
    cap_get.
  case_bool_decide; [done|]. cbn.
  destruct (videos video_path) as [v|] eqn:Hv; cbn; [|done].
  destruct (capture_each_calls v output_dir frame_numbers
              {| source := Some v; pos := 0 |} eq_refl) as (cap' & ->).
  done.
Qed.

Local Abbreviation split := (rotate_and_split_into_channels INTER_LINEAR).

(** A valid channel number selects one of the four channels. *)
Lemma channel_lookup (chs : list (ndarray A)) (channel : Z) :
  length chs = 4 → channel ∈ [1; 2; 3; 4]%Z →
  is_Some (chs !! Z.to_nat (channel - 1)).
Proof.
  intros Hlen Hch. apply lookup_lt_is_Some. rewrite Hlen.
  repeat (apply elem_of_cons in Hch as [->|Hch]; [lia|]).
  by apply elem_of_nil in Hch.
Qed.

Lemma split_length frame W H chs :
  split frame W H = Some chs → length chs = 4.
Proof.
  intros Hsplit.
  destruct (split_unfold INTER_LINEAR frame W H)
    as (_ & rot & _ & _ & _ & _ & _ & _ & _ & Hsplit');
    [by eapply split_Some_inv|].
  cbv zeta in Hsplit'. rewrite Hsplit in Hsplit'. by injection Hsplit' as ->.
Qed.

(** The run of [capture_channel_from_frame] up to the split. *)
Lemma capture_channel_run
    video_path v frame_number channel output_path IMAGE_WIDTH IMAGE_HEIGHT
    img :
  channel ∈ [1; 2; 3; 4]%Z →
  videos video_path = Some v →
  frame_at v frame_number = Some img →
  let W := default (CAP_PROP_FRAME_WIDTH v) IMAGE_WIDTH in
  let H := default (CAP_PROP_FRAME_HEIGHT v) IMAGE_HEIGHT in
  let path :=
    default (default_channel_path frame_number channel) output_path in
  capture_channel_from_frame videos INTER_LINEAR video_path frame_number
    channel output_path IMAGE_WIDTH IMAGE_HEIGHT
  = match split img W H with
    | None =>
        (inl cv2_error, [open_capture video_path; seek frame_number; read])
    | Some chs =>
        match chs !! Z.to_nat (channel - 1) with
        | None =>
            (inl IndexError,
             [open_capture video_path; seek frame_number; read])
        | Some ch =>
            (inr true,
             [open_capture video_path; seek frame_number; read] ++
             (if bool_decide (os_path_dirname path = EmptyString) then []
              else [makedirs (os_path_dirname path)]) ++
             [imwrite path ch;
              imshow ("Frame " +:+ pretty frame_number +:+ " - Channel "
                      +:+ pretty channel) ch;
              waitKey; destroyAllWindows; release_capture])
        end
    end.
Proof.
  intros Hch Hv Himg. cbv zeta.
  unfold capture_channel_from_frame, cv2_VideoCapture, isOpened, cap_get,
    cap_set_pos, cap_read, cap_release, default_channel_path.
  rewrite bool_decide_true by done.
  cbn -[rotate_and_split_into_channels]. rewrite Hv.
  cbn -[rotate_and_split_into_channels].
  unfold frame_at in Himg.
  destruct ((frame_number >=? _) || _)%Z; [done|].
  cbn -[rotate_and_split_into_channels]. rewrite Himg.
  cbn -[rotate_and_split_into_channels].
  destruct (split img _ _) as [chs|];
    cbn -[rotate_and_split_into_channels]; [|done].
  destruct (chs !! Z.to_nat (channel - 1)) as [ch|];
    cbn -[rotate_and_split_into_channels]; [|done].
  by case_bool_decide.
Qed.

(** X6. With a valid channel, a video that opens, a frame that is in range
    and decodes, and a target of at least 2 x 2, [capture_channel_from_frame]
    returns True and writes one image: element [channel - 1] of the split
    of the decoded frame, under the given name or else under
    src/opencv/output/frame_<number:04d>_ch<channel>.jpg.  The handle is
    released by the last call. *)
Theorem capture_channel_saves_selected
    video_path v frame_number channel output_path IMAGE_WIDTH IMAGE_HEIGHT
    img :
  let W := default (CAP_PROP_FRAME_WIDTH v) IMAGE_WIDTH in
  let H := default (CAP_PROP_FRAME_HEIGHT v) IMAGE_HEIGHT in
  channel ∈ [1; 2; 3; 4]%Z →
  videos video_path = Some v →
  frame_at v frame_number = Some img →
  0 < n_rows img ∧ 0 < n_cols img →
  (2 ≤ W ∧ 2 ≤ H)%Z →
  ∃ chs ch log,
    split img W H = Some chs ∧
    chs !! Z.to_nat (channel - 1) = Some ch ∧
    capture_channel_from_frame videos INTER_LINEAR video_path frame_number
      channel output_path IMAGE_WIDTH IMAGE_HEIGHT = (inr true, log) ∧
    written_images log =
      [(default (default_channel_path frame_number channel) output_path,
        ch)] ∧
    last log = Some release_capture.
Proof.
  intros W H Hch Hv Himg [Hr Hc] [HW HH].
  destruct (split_unfold INTER_LINEAR img W H)
    as (_ & rot & _ & _ & _ & _ & _ & _ & _ & Hsplit);
    [unfold resizable; lia|].
  cbv zeta in Hsplit.
  destruct (channel_lookup _ channel (split_length _ _ _ _ Hsplit) Hch)
    as [ch Hlook].
  eexists _, ch, _. split; [exact Hsplit|]. split; [exact Hlook|].
  rewrite (capture_channel_run _ _ _ _ _ _ _ _ Hch Hv Himg). cbv zeta.
  fold W H. rewrite Hsplit, Hlook.
  split; [done|]. by case_bool_decide.
Qed.

(** X7. Under the same conditions the image that is written has the shape
    given by the target alone, which is (IMAGE_WIDTH, IMAGE_HEIGHT) or,
    for an argument left out, the width or height the video reports:
    channels 1 and 3 have ceil(W/2) rows and channels 2 and 4 floor(W/2),
    channels 3 and 4 have ceil(H/2) columns and channels 1 and 2
    floor(H/2). *)
Theorem capture_channel_saved_shape
    video_path v frame_number channel output_path IMAGE_WIDTH IMAGE_HEIGHT
    img :
  let W := default (CAP_PROP_FRAME_WIDTH v) IMAGE_WIDTH in
  let H := default (CAP_PROP_FRAME_HEIGHT v) IMAGE_HEIGHT in
  channel ∈ [1; 2; 3; 4]%Z →
  videos video_path = Some v →
  frame_at v frame_number = Some img →
  0 < n_rows img ∧ 0 < n_cols img →
  (2 ≤ W ∧ 2 ≤ H)%Z →
  ∃ path ch log,
    capture_channel_from_frame videos INTER_LINEAR video_path frame_number
      channel output_path IMAGE_WIDTH IMAGE_HEIGHT = (inr true, log) ∧
    written_images log = [(path, ch)] ∧
    shape ch = channel_shape W H channel.
Proof.
  intros W H Hch Hv Himg [Hr Hc] [HW HH].
  destruct (split_ceil_sized INTER_LINEAR img W H)
    as (_ & chs & _ & Hsplit & _ & Hshapes); [unfold resizable; lia|].
  unfold ceil_sized in Hshapes.
  destruct chs as [|ch1 [|ch2 [|ch3 [|ch4 [|]]]]]; try done.
  cbn [fmap list_fmap] in Hshapes.
  injection Hshapes as R1 C1 R2 C2 R3 C3 R4 C4.
  rewrite (capture_channel_run _ _ _ _ _ _ _ _ Hch Hv Himg). cbv zeta.
  fold W H. rewrite Hsplit. unfold channel_shape, shape. cbv zeta.
  repeat (apply elem_of_cons in Hch as [->|Hch];
          [eexists _, _, _;
           split; [reflexivity|];
           split; [by case_bool_decide|];
           repeat (first [rewrite bool_decide_eq_true_2 by lia
                         |rewrite bool_decide_eq_false_2 by lia]);
           f_equal; assumption|]).
  by apply elem_of_nil in Hch.
Qed.

(** X8. With a target whose width or height is not positive, the resize
    is refused after the frame has been read: the call ends in cv2.error
    and has made the three calls open, seek and read; the handle is not
    released and no image is written. *)
Theorem capture_channel_resize_error
    video_path v frame_number channel output_path IMAGE_WIDTH IMAGE_HEIGHT
    img :
  let W := default (CAP_PROP_FRAME_WIDTH v) IMAGE_WIDTH in
  let H := default (CAP_PROP_FRAME_HEIGHT v) IMAGE_HEIGHT in
  channel ∈ [1; 2; 3; 4]%Z →
  videos video_path = Some v →
  frame_at v frame_number = Some img →
  (W ≤ 0 ∨ H ≤ 0)%Z →
  capture_channel_from_frame videos INTER_LINEAR video_path frame_number
    channel output_path IMAGE_WIDTH IMAGE_HEIGHT
  = (inl cv2_error, [open_capture video_path; seek frame_number; read]).
Proof.
  intros W H Hch Hv Himg HWH.
  rewrite (capture_channel_run _ _ _ _ _ _ _ _ Hch Hv Himg). cbv zeta.
  fold W H.
  destruct (split img W H) as [chs|] eqn:Hsplit; [|done].
  apply split_Some_inv in Hsplit. unfold resizable in Hsplit. lia.
Qed.

(** X9. The index [channel - 1] is always inside the list of channels:
    whatever the arguments, [capture_channel_from_frame] does not end in
    an IndexError. *)
Theorem capture_channel_no_index_error
    video_path frame_number channel output_path IMAGE_WIDTH IMAGE_HEIGHT :
  (capture_channel_from_frame videos INTER_LINEAR video_path frame_number
     channel output_path IMAGE_WIDTH IMAGE_HEIGHT).1 ≠ inl IndexError.
Proof.
  destruct (decide (channel ∈ [1; 2; 3; 4]%Z)) as [Hch|Hch];
    [|by rewrite invalid_channel_lemma].
  destruct (videos video_path) as [v|] eqn:Hv.
  - destruct (frame_at v frame_number) as [img|] eqn:Himg.
    + rewrite (capture_channel_run _ _ _ _ _ _ _ _ Hch Hv Himg). cbv zeta.
      destruct (split img _ _) as [chs|] eqn:Hsplit; [|done].
      destruct (channel_lookup chs channel) as [ch ->];
        [by eapply split_length|done|done].
    + unfold capture_channel_from_frame, cv2_VideoCapture, isOpened,
        cap_get, cap_set_pos, cap_read, cap_release.
      rewrite bool_decide_true by done.
      cbn -[rotate_and_split_into_channels]. rewrite Hv.
      cbn -[rotate_and_split_into_channels].
      unfold frame_at in Himg.
      destruct ((frame_number >=? _) || _)%Z; [done|].
      cbn -[rotate_and_split_into_channels]. by rewrite Himg.
  - unfold capture_channel_from_frame, cv2_VideoCapture, isOpened.
    rewrite bool_decide_true by done. cbn. by rewrite Hv.
Qed.

End capture_more.

Lemma capture_channel_saves_selected_witness :
  (3 ∈ [1; 2; 3; 4])%Z ∧
  sample_files "in.mp4" = Some sample_video ∧
  frame_at sample_video 0 = Some sample_frame ∧
  (0 < n_rows sample_frame ∧ 0 < n_cols sample_frame) ∧
  (2 ≤ 3 ∧ 2 ≤ 2)%Z ∧
  ∃ chs ch log,
    rotate_and_split_into_channels (INTER_NEAREST 0) sample_frame 3 2
      = Some chs ∧
    chs !! Z.to_nat (3 - 1) = Some ch ∧
    capture_channel_from_frame sample_files (INTER_NEAREST 0) "in.mp4" 0 3
      None None None = (inr true, log) ∧
    written_images log = [(default_channel_path 0 3, ch)] ∧
    last log = Some release_capture.
Proof.
  assert (3 ∈ [1; 2; 3; 4])%Z as Hch
    by (apply (bool_decide_unpack _); vm_compute; exact I).
  assert (sample_files "in.mp4" = Some sample_video) as Hv by reflexivity.
  assert (frame_at sample_video 0 = Some sample_frame) as Himg
    by reflexivity.
  assert (0 < n_rows sample_frame ∧ 0 < n_cols sample_frame) as Hne
    by (simpl; lia).
  assert (2 ≤ 3 ∧ 2 ≤ 2)%Z as Hsize by lia.
  repeat (split; [assumption|]).
  exact (capture_channel_saves_selected sample_files (INTER_NEAREST 0)
           "in.mp4" sample_video 0 3 None None None sample_frame
           Hch Hv Himg Hne Hsize).
Defined.

Lemma capture_channel_saved_shape_witness :
  (3 ∈ [1; 2; 3; 4])%Z ∧
  sample_files "in.mp4" = Some sample_video ∧
  frame_at sample_video 0 = Some sample_frame ∧
  (0 < n_rows sample_frame ∧ 0 < n_cols sample_frame) ∧
  (2 ≤ 5 ∧ 2 ≤ 2)%Z ∧
  ∃ path ch log,
    capture_channel_from_frame sample_files (INTER_NEAREST 0) "in.mp4" 0 3
      None (Some 5%Z) None = (inr true, log) ∧
    written_images log = [(path, ch)] ∧
    shape ch = channel_shape 5 2 3.
Proof.
  assert (3 ∈ [1; 2; 3; 4])%Z as Hch
    by (apply (bool_decide_unpack _); vm_compute; exact I).
  assert (sample_files "in.mp4" = Some sample_video) as Hv by reflexivity.
  assert (frame_at sample_video 0 = Some sample_frame) as Himg
    by reflexivity.
  assert (0 < n_rows sample_frame ∧ 0 < n_cols sample_frame) as Hne
    by (simpl; lia).
  assert (2 ≤ 5 ∧ 2 ≤ 2)%Z as Hsize by lia.
  repeat (split; [assumption|]).
  exact (capture_channel_saved_shape sample_files (INTER_NEAREST 0)
           "in.mp4" sample_video 0 3 None (Some 5%Z) None sample_frame
           Hch Hv Himg Hne Hsize).
Defined.

Lemma capture_channel_resize_error_witness :
  (1 ∈ [1; 2; 3; 4])%Z ∧
  sample_files "in.mp4" = Some sample_video ∧
  frame_at sample_video 2 = Some sample_frame ∧
  (0 ≤ 0 ∨ 2 ≤ 0)%Z ∧
  capture_channel_from_frame sample_files (INTER_NEAREST 0) "in.mp4" 2 1
    None (Some 0%Z) None
  = (inl cv2_error, [open_capture "in.mp4"; seek 2; read]).
Proof.
  assert (1 ∈ [1; 2; 3; 4])%Z as Hch
    by (apply (bool_decide_unpack _); vm_compute; exact I).
  assert (sample_files "in.mp4" = Some sample_video) as Hv by reflexivity.
  assert (frame_at sample_video 2 = Some sample_frame) as Himg
    by reflexivity.
  assert (0 ≤ 0 ∨ 2 ≤ 0)%Z as Hsize by lia.
  repeat (split; [assumption|]).
  exact (capture_channel_resize_error sample_files (INTER_NEAREST 0)
           "in.mp4" sample_video 2 1 None (Some 0%Z) None sample_frame
           Hch Hv Himg Hsize).
Defined.

(** ** File names *)

Section names.
Implicit Types (s t : string) (l k : list ascii).

Local Abbreviation chars := String.list_ascii_of_string.

Lemma chars_app s t : chars (s +:+ t) = chars s ++ chars t.
Proof. induction s as [|c s IH]; [done|]. simpl. by rewrite IH. Qed.

Lemma chars_inj s t : chars s = chars t → s = t.
Proof.
  intros Heq. rewrite <-(String.string_of_list_ascii_of_string s),
    <-(String.string_of_list_ascii_of_string t). by rewrite Heq.
Qed.

Lemma chars_length s : length (chars s) = String.length s.
Proof. induction s as [|c s IH]; [done|]. simpl. by rewrite IH. Qed.

Lemma append_inj_r s t u : s +:+ u = t +:+ u → s = t.
Proof.
  intros Heq. apply chars_inj. apply (f_equal chars) in Heq.
  rewrite !chars_app in Heq. by apply app_inv_tail in Heq.
Qed.

Lemma pretty_N_go_head (x : N) s :
  (0 < x)%N → ∃ c r, chars (pretty_N_go x s) = c :: r ∧ c ≠ "0"%char.
Proof.
  revert s. induction (N.lt_wf_0 x) as [x _ IH]; intros s Hx.
  rewrite pretty_N_go_step by done.
  assert (x < 10 ∨ 10 ≤ x)%N as [Hs|Hl] by lia.
  - rewrite N.div_small, N.mod_small, pretty_N_go_0 by done.
    eexists _, _. split; [done|].
    intros Hzero. apply (pretty_N_char_inj x 0) in Hzero; lia.
  - apply IH; [by apply N.div_lt|].
    apply N.div_str_pos. lia.
Qed.

Lemma pretty_N_numeral (x : N) : numeral (chars (pretty x)).
Proof.
  unfold pretty, pretty_N. case_decide as Hx.
  - by left.
  - right. apply pretty_N_go_head. lia.
Qed.

(** Numerals padded with zeros are equal only when the numerals are. *)
Lemma zero_pad_inj (m n : nat) l k :
  numeral l → numeral k →
  replicate m "0"%char ++ l = replicate n "0"%char ++ k → l = k.
Proof.
  assert (∀ m n l c r, l = ["0"%char] ∨ (∃ c' r', l = c' :: r' ∧ n < m) →
            c ≠ "0"%char →
            replicate m "0"%char ++ l ≠ replicate n "0"%char ++ c :: r)
    as Hdiff.
  { intros m' n' l' c r Hl Hc Heq.
    apply (f_equal (.!! n')) in Heq.
    rewrite (lookup_app_r (replicate n' _)) in Heq
      by (by rewrite length_replicate).
    rewrite length_replicate, Nat.sub_diag in Heq. simpl in Heq.
    destruct Hl as [->|(c' & r' & -> & Hlt)].
    - change (replicate m' "0"%char ++ ["0"%char])
        with (replicate m' "0"%char ++ replicate 1 "0"%char) in Heq.
      rewrite <-replicate_add in Heq.
      apply lookup_replicate_1 in Heq as [? _]. congruence.
    - rewrite lookup_app_l in Heq by (rewrite length_replicate; lia).
      apply lookup_replicate_1 in Heq as [? _]. congruence. }
  intros [->|(c & r & -> & Hc)] [->|(c' & r' & -> & Hc')] Heq.
  - done.
  - exfalso. eapply Hdiff; [by left|exact Hc'|exact Heq].
  - exfalso. eapply Hdiff; [by left|exact Hc|symmetry; exact Heq].
  - destruct (Nat.lt_trichotomy m n) as [Hlt|[->|Hgt]].
    + exfalso.
      eapply (Hdiff n m); [right; eauto|exact Hc|symmetry; exact Heq].
    + by apply app_inv_head in Heq.
    + exfalso. eapply (Hdiff m n); [right; eauto|exact Hc'|exact Heq].
Qed.

Lemma chars_zfill width s :
  chars (zfill width s)
  = replicate (width - String.length s) "0"%char ++ chars s.
Proof.
  unfold zfill.
  by rewrite chars_app, String.list_ascii_of_string_of_list_ascii.
Qed.

(** Frame numbers that are not negative are told apart by [:04d]. *)
Lemma format_04d_inj (m n : Z) :
  (0 ≤ m)%Z → (0 ≤ n)%Z → format_04d m = format_04d n → m = n.
Proof.
  intros Hm Hn. unfold format_04d.
  rewrite !decide_False by lia. intros Heq.
  apply (f_equal chars) in Heq. rewrite !chars_zfill in Heq.
  apply zero_pad_inj in Heq; [|apply pretty_N_numeral..].
  apply chars_inj, (inj pretty) in Heq. lia.
Qed.

(** Under one directory, different frame numbers get different names. *)
Lemma frame_path_inj output_dir (m n : Z) :
  (0 ≤ m)%Z → (0 ≤ n)%Z →
  os_path_join output_dir ("frame_" +:+ format_04d m +:+ ".jpg")
  = os_path_join output_dir ("frame_" +:+ format_04d n +:+ ".jpg") →
  m = n.
Proof.
  intros Hm Hn. unfold os_path_join.
  change (String.prefix "/" ("frame_" +:+ format_04d m +:+ ".jpg"))
    with false.
  change (String.prefix "/" ("frame_" +:+ format_04d n +:+ ".jpg"))
    with false.
  cbv iota. intros Heq.
  assert ("frame_" +:+ format_04d m +:+ ".jpg"
          = "frame_" +:+ format_04d n +:+ ".jpg") as Hname.
  { destruct (bool_decide _); [done|].
    destruct (forallb _ _).
    - by apply (inj (String.app output_dir)) in Heq.
    - apply (inj (String.app output_dir)) in Heq.
      by apply (inj (String.app "/")) in Heq. }
  apply (inj (String.app "frame_")) in Hname.
  apply append_inj_r in Hname. by apply format_04d_inj.
Qed.

End names.

(** ** Files written by the two frame capture functions *)

Section capture_files.
Context {A : Type}.
Variable videos : string → option (Video A).
Implicit Types (v : Video A) (n : Z).

Lemma frame_at_nonneg v n img : frame_at v n = Some img → (0 ≤ n)%Z.
Proof. unfold frame_at. destruct (_ || _)%Z eqn:Hn; [done|lia]. Qed.

Lemma expected_images_NoDup v output_dir frame_numbers :
  NoDup frame_numbers →
  NoDup (fst <$> expected_images v output_dir frame_numbers).
Proof.
  induction 1 as [|n rest Hn _ IH]; [constructor|].
  unfold expected_images in *. cbn [omap list_omap].
  destruct (frame_at v n) as [img|] eqn:Himg; cbn; [|exact IH].
  apply NoDup_cons. split; [|exact IH].
  intros ([p img'] & Hp & Hin)%list_elem_of_fmap. simpl in Hp.
  apply list_elem_of_omap in Hin as (m & Hm & Hgm).
  destruct (frame_at v m) as [img''|] eqn:Himg'; [|done].
  simpl in Hgm. injection Hgm as Hpath _.
  apply Hn. replace n with m; [done|].
  apply (frame_path_inj output_dir); [by eapply frame_at_nonneg..|].
  congruence.
Qed.

Lemma capture_multiple_frames_images video_path frame_numbers output_dir :
  written_images
    (capture_multiple_frames videos video_path frame_numbers output_dir).2
  = if bool_decide (output_dir = EmptyString) then []
    else match videos video_path with
         | Some v => expected_images v output_dir frame_numbers
         | None => []
         end.
Proof.
  unfold capture_multiple_frames, os_makedirs, cv2_VideoCapture, isOpened,
    cap_get.
  case_bool_decide; [done|]. cbn.
  destruct (videos video_path) as [v|] eqn:Hv; cbn; [|done].
  destruct (capture_each_spec v output_dir frame_numbers
              {| source := Some v; pos := 0 |} eq_refl)
    as (cap' & log & -> & _ & Hlog).
  cbn. change (written_images (log ++ [release_capture]) =
               expected_images v output_dir frame_numbers).
  by rewrite written_images_app, Hlog, app_nil_r.
Qed.

(** X14. When the requested frame numbers are pairwise different, the
    image files written by [capture_multiple_frames] have pairwise
    different names: no frame is written over another. *)
Theorem capture_multiple_frames_distinct_names
    video_path frame_numbers output_dir :
  NoDup frame_numbers →
  NoDup (fst <$> written_images
           (capture_multiple_frames videos video_path frame_numbers
              output_dir).2).
Proof.
  intros Hnodup. rewrite capture_multiple_frames_images.
  case_bool_decide; [constructor|].
  destruct (videos video_path) as [v|]; [|constructor].
  by apply expected_images_NoDup.
Qed.

(** X15. For one frame number and an output directory that has a name,
    [capture_specific_frame] and [capture_multiple_frames] write the same
    image, or both write none: the two agree on which frame a number names
    and on when it can be had.  (With the empty name as output directory
    [capture_multiple_frames] ends at [os.makedirs] and writes nothing.) *)
Theorem capture_single_and_multiple_agree
    video_path frame_number output_path output_dir :
  output_dir ≠ EmptyString →
  snd <$> written_images
    (capture_specific_frame videos video_path frame_number output_path).2
  = snd <$> written_images
      (capture_multiple_frames videos video_path [frame_number]
         output_dir).2.
Proof.
  intros Hdir. rewrite capture_multiple_frames_images.
  rewrite bool_decide_false by done.
  unfold capture_specific_frame, cv2_VideoCapture, isOpened, cap_get,
    cap_set_pos, cap_read, cap_release, expected_images, frame_at.
  cbn. destruct (videos video_path) as [v|]; cbn; [|done].
  destruct ((frame_number >=? _) || _)%Z; cbn; [done|].
  destruct (mjoin (decoded v !! Z.to_nat frame_number)) as [img|]; cbn;
    [|done].
  by case_bool_decide.
Qed.

End capture_files.

Lemma capture_multiple_frames_distinct_names_witness :
  NoDup [0; 5; 2; -1]%Z ∧
  NoDup (fst <$> written_images
           (capture_multiple_frames sample_files "in.mp4" [0; 5; 2; -1]%Z
              "frames").2).
Proof.
  assert (NoDup [0; 5; 2; -1]%Z) as Hnodup
    by (apply (bool_decide_unpack _); vm_compute; exact I).
  split; [exact Hnodup|].
  exact (capture_multiple_frames_distinct_names sample_files "in.mp4"
           [0; 5; 2; -1]%Z "frames" Hnodup).
Defined.

Lemma capture_single_and_multiple_agree_witness :
  "frames" ≠ EmptyString ∧
  snd <$> written_images
    (capture_specific_frame sample_files "in.mp4" 2 "captured_frame.jpg").2
  = snd <$> written_images
      (capture_multiple_frames sample_files "in.mp4" [2]%Z "frames").2.
Proof.
  assert ("frames" ≠ EmptyString) as Hdir by discriminate.
  split; [exact Hdir|].
  exact (capture_single_and_multiple_agree sample_files "in.mp4" 2
           "captured_frame.jpg" "frames" Hdir).
Defined.

(** ** The frame numbering script *)

Section numbering.
Context {A : Type}.
Variable videos : string → option (Video A).
Variable writable : string → bool.
Variable cv2_getTextSize : string → Z → Z → (Z * Z) * Z.
Variable cv2_rectangle :
  ndarray A → Z * Z → Z * Z → Z * Z * Z → Z → ndarray A.
Variable cv2_addWeighted_06_04 : ndarray A → ndarray A → ndarray A.
Variable cv2_putText :
  ndarray A → string → Z * Z → Z → Z * Z * Z → Z → ndarray A.
Variables (font_scale thickness : Z) (color : Z * Z * Z).

Local Abbreviation burn_in :=
  (annotate cv2_getTextSize cv2_rectangle cv2_addWeighted_06_04 cv2_putText
     font_scale thickness color).
Local Abbreviation loop := (λ fuel cap out,
  annotation_loop cv2_getTextSize cv2_rectangle cv2_addWeighted_06_04
    cv2_putText fuel cap out font_scale thickness color).

(** Different frame numbers give different texts. *)
Lemma counter_text_inj (j k : nat) : counter_text j = counter_text k → j = k.
Proof.
  unfold counter_text. cbn [String.append]. intros [= Hjk].
  by apply (inj pretty).
Qed.

Lemma written_frames_app (l1 l2 : list (call A)) :
  written_frames (l1 ++ l2) = written_frames l1 ++ written_frames l2.
Proof. apply omap_app. Qed.

Lemma drop_cons_inv {B} (l : list B) (i : nat) (x : B) (xs : list B) :
  drop i l = x :: xs → l !! i = Some x ∧ drop (S i) l = xs.
Proof.
  intros Hd.
  assert (l !! i = Some x) as Hi.
  { rewrite <-(Nat.add_0_r i), <-lookup_drop. by rewrite Hd. }
  split; [done|]. apply drop_S in Hi. congruence.
Qed.

(** The loop writes one numbered frame for each frame up to the first read
    that gives none, provided the progress line never divides by zero. *)
Lemma annotation_loop_spec v out total_frames fs rest :
  (rest = [] ∨ ∃ rest', rest = None :: rest') →
  ∀ fuel cap k,
    source cap = Some v →
    drop (pos cap) (decoded v) = (Some <$> fs) ++ rest →
    length fs < fuel →
    (total_frames ≠ 0%Z ∨
     ∀ j, k < j ≤ k + length fs → j `mod` 30 ≠ 0) →
    ∃ log,
      loop fuel cap out total_frames k = (inr (k + length fs), log) ∧
      written_frames log = imap (λ i, burn_in (k + i)) fs.
Proof.
  intros Hrest. induction fs as [|f fs IH]; intros fuel cap k Hsrc Hd Hf Hz.
  - destruct fuel as [|fuel]; [simpl in Hf; lia|].
    assert (mjoin (decoded v !! pos cap) = None) as Hread.
    { rewrite <-(Nat.add_0_r (pos cap)), <-lookup_drop, Hd.
      by destruct Hrest as [->|[rest' ->]]. }
    cbn [annotation_loop]. unfold cap_read. cbn -[Nat.modulo]. rewrite Hsrc. cbn -[Nat.modulo].
    rewrite Hread. cbn -[Nat.modulo]. rewrite Nat.add_0_r. by eexists.
  - destruct fuel as [|fuel]; [simpl in Hf; lia|].
    apply drop_cons_inv in Hd as [Hread Hd].
    cbn [annotation_loop]. unfold cap_read, out_write. cbn -[Nat.modulo].
    rewrite Hsrc. cbn -[Nat.modulo]. rewrite Hread. cbn -[Nat.modulo].
    destruct (IH fuel {| source := Some v; pos := S (pos cap) |} (k + 1))
      as (log & Hloop & Hlog); [done|done|simpl in Hf; lia| |].
    { destruct Hz as [Hz|Hz]; [by left|right].
      intros j Hj. apply Hz. simpl. lia. }
    assert ((if bool_decide ((k + 1) `mod` 30 = 0)
             then if bool_decide (total_frames = 0%Z)
                  then raise ZeroDivisionError else mret ()
             else mret ()) = (inr (), []) :> M A ()) as Hprogress.
    { case_bool_decide as Hk; [|done].
      case_bool_decide as Ht; [|done].
      destruct Hz as [Hz|Hz]; [done|].
      exfalso. apply (Hz (k + 1)); [simpl; lia|done]. }
    rewrite Hprogress. cbn -[Nat.modulo]. rewrite Hloop. cbn -[Nat.modulo].
    eexists. split.
    + do 2 f_equal. lia.
    + change (burn_in k f :: written_frames log =
              burn_in (k + 0) f :: imap ((λ i, burn_in (k + i)) ∘ S) fs).
      rewrite Hlog, Nat.add_0_r. f_equal.
      apply imap_ext. intros i x _. simpl. f_equal. lia.
Qed.

(** What C6 says holds whenever the reported frame count is not zero, or
    the video has fewer than 30 frames: every frame up to the first failed
    read is written once, in order, frame [k] with the number [k]. *)
Lemma add_frame_numbers_writes_all fuel input_path output_path v fs rest :
  videos input_path = Some v →
  writable output_path = true →
  decoded v = (Some <$> fs) ++ rest →
  (rest = [] ∨ ∃ rest', rest = None :: rest') →
  (CAP_PROP_FRAME_COUNT v ≠ 0%Z ∨ length fs < 30) →
  length fs < fuel →
  ∃ log,
    add_frame_numbers_to_video videos writable cv2_getTextSize
      cv2_rectangle cv2_addWeighted_06_04 cv2_putText
      fuel input_path output_path font_scale thickness color
      = (inr true, log) ∧
    written_frames log = imap burn_in fs.
Proof.
  intros Hv Hw Hdec Hrest Hz Hfuel.
  destruct (annotation_loop_spec v {| w_opened := true |}
              (CAP_PROP_FRAME_COUNT v) fs rest Hrest fuel
              {| source := Some v; pos := 0 |} 0)
    as (log & Hloop & Hlog); [done|done|done| |].
  { destruct Hz as [Hz|Hz]; [by left|right].
    intros j Hj. rewrite Nat.mod_small by lia. lia. }
  unfold add_frame_numbers_to_video, cv2_VideoCapture, cv2_VideoWriter,
    isOpened, cap_get, cap_release, out_release.
  cbn. rewrite Hv. cbn. rewrite Hw. cbn. rewrite Hloop. cbn.
  eexists. split; [done|].
  change (written_frames (log ++ [release_capture; release_writer])
          = imap burn_in fs).
  by rewrite written_frames_app, Hlog, app_nil_r.
Qed.

(** C6 fails on a video whose container reports a frame count of 0: after
    the thirtieth frame is written, the progress line divides by the
    reported count and the call ends in a ZeroDivisionError, whatever the
    fuel, with 30 frames written and no handle released. *)
Theorem annotation_divides_by_zero img fuel input_path output_path :
  ∃ log,
    add_frame_numbers_to_video (λ _, Some (uncounted_video img)) (λ _, true)
      cv2_getTextSize cv2_rectangle cv2_addWeighted_06_04 cv2_putText
      (30 + fuel) input_path output_path font_scale thickness color
      = (inl ZeroDivisionError, log) ∧
    length (written_frames log) = 30 ∧
    (release_capture ∉ log) ∧ (release_writer ∉ log).
Proof.
  eexists. split; [by vm_compute|].
  split; [by vm_compute|].
  split; intros Hin; repeat (apply elem_of_cons in Hin as [?|Hin]; [done|]);
    by apply elem_of_nil in Hin.
Qed.

End numbering.

(** The sample video stops decoding at its second frame: one frame is
    written, numbered 0, and the call returns True. *)
Example add_frame_numbers_sample :
  ∃ log,
    add_frame_numbers_to_video sample_files (λ _, true)
      (λ _ _ _, (0, 0, 0)%Z) (λ img _ _ _ _, img) (λ _ img, img)
      (λ img _ _ _ _ _, img) 2 "in.mp4" "out.mp4" 2 3 (0, 255, 0)%Z
      = (inr true, log) ∧
    written_frames log = [sample_frame].
Proof.
  destruct (add_frame_numbers_writes_all sample_files (λ _, true)
              (λ _ _ _, (0, 0, 0)%Z) (λ img _ _ _ _, img) (λ _ img, img)
              (λ img _ _ _ _ _, img) 2 3 (0, 255, 0)%Z 2 "in.mp4" "out.mp4"
              sample_video [sample_frame] [None; Some sample_frame])
    as (log & Hrun & Hlog);
    [reflexivity|reflexivity|reflexivity|right; by eexists
    |left; simpl; lia|simpl; lia|].
  exists log. split; [exact Hrun|exact Hlog].
Qed.

(** ** More on the frame numbering script *)

Section numbering_more.
Context {A : Type}.
Variable videos : string → option (Video A).
Variable writable : string → bool.
Variable cv2_getTextSize : string → Z → Z → (Z * Z) * Z.
Variable cv2_rectangle :
  ndarray A → Z * Z → Z * Z → Z * Z * Z → Z → ndarray A.
Variable cv2_addWeighted_06_04 : ndarray A → ndarray A → ndarray A.
Variable cv2_putText :
  ndarray A → string → Z * Z → Z → Z * Z * Z → Z → ndarray A.
Variables (font_scale thickness : Z) (color : Z * Z * Z).

Local Abbreviation burn_in :=
  (annotate cv2_getTextSize cv2_rectangle cv2_addWeighted_06_04 cv2_putText
     font_scale thickness color).
Local Abbreviation loop := (λ fuel cap out,
  annotation_loop cv2_getTextSize cv2_rectangle cv2_addWeighted_06_04
    cv2_putText fuel cap out font_scale thickness color).
Local Abbreviation run := (λ fuel input_path output_path,
  add_frame_numbers_to_video videos writable cv2_getTextSize cv2_rectangle
    cv2_addWeighted_06_04 cv2_putText fuel input_path output_path
    font_scale thickness color).

(** X10. When the input video cannot be opened or the output video cannot
    be created, the call returns False and no frame is read or written;
    the input handle, when it was opened, is released by the last call. *)
Theorem add_frame_numbers_open_failure fuel input_path output_path :
  videos input_path = None ∨ writable output_path = false →
  ∃ log,
    run fuel input_path output_path = (inr false, log) ∧
    (read ∉ log) ∧ written_frames log = [] ∧
    match videos input_path with
    | Some _ => last log = Some release_capture
    | None => log = [open_capture input_path]
    end.
Proof.
  intros Hfail.
  unfold add_frame_numbers_to_video, cv2_VideoCapture, cv2_VideoWriter,
    isOpened, cap_get, cap_release.
  cbn. destruct (videos input_path) as [v|] eqn:Hv; cbn.
  - destruct Hfail as [?|Hw]; [done|]. rewrite Hw. cbn.
    eexists. split; [done|]. split_and!; [|done..].
    intros Hin.
    repeat (apply elem_of_cons in Hin as [?|Hin]; [done|]).
    by apply elem_of_nil in Hin.
  - eexists. split; [done|]. split_and!; [|done..].
    intros Hin.
    repeat (apply elem_of_cons in Hin as [?|Hin]; [done|]).
    by apply elem_of_nil in Hin.
Qed.

(** X11. When both videos open and the reported frame count is not zero,
    or fewer than 30 frames can be read, the call returns True: the frames
    up to the first read that fails are written once each, in order, frame
    [k] with the number [k]; frames after a failed read are not written;
    the two handles are released last. *)
Theorem add_frame_numbers_complete
    fuel input_path output_path v fs rest :
  videos input_path = Some v →
  writable output_path = true →
  decoded v = (Some <$> fs) ++ rest →
  (rest = [] ∨ ∃ rest', rest = None :: rest') →
  (CAP_PROP_FRAME_COUNT v ≠ 0%Z ∨ length fs < 30) →
  length fs < fuel →
  ∃ body,
    run fuel input_path output_path
      = (inr true,
         [open_capture input_path;
          open_writer output_path (CAP_PROP_FRAME_WIDTH v)
            (CAP_PROP_FRAME_HEIGHT v)]
         ++ body ++ [release_capture; release_writer]) ∧
    written_frames body = imap burn_in fs.
Proof.
  intros Hv Hw Hdec Hrest Hz Hfuel.
  destruct (annotation_loop_spec cv2_getTextSize cv2_rectangle
              cv2_addWeighted_06_04 cv2_putText font_scale thickness color
              v {| w_opened := true |}
              (CAP_PROP_FRAME_COUNT v) fs rest Hrest fuel
              {| source := Some v; pos := 0 |} 0)
    as (log & Hloop & Hlog); [done|done|done| |].
  { destruct Hz as [Hz|Hz]; [by left|right].
    intros j Hj. rewrite Nat.mod_small by lia. lia. }
  unfold add_frame_numbers_to_video, cv2_VideoCapture, cv2_VideoWriter,
    isOpened, cap_get, cap_release, out_release.
  cbn. rewrite Hv. cbn. rewrite Hw. cbn. rewrite Hloop. cbn.
  by exists log.
Qed.

(** The loop up to the progress line that divides by zero. *)
Lemma annotation_loop_raises v out fs rest :
  fs ≠ [] →
  ∀ fuel cap k,
    source cap = Some v →
    drop (pos cap) (decoded v) = (Some <$> fs) ++ rest →
    length fs ≤ fuel →
    (∀ j, k < j < k + length fs → j `mod` 30 ≠ 0) →
    (k + length fs) `mod` 30 = 0 →
    ∃ log,
      loop fuel cap out 0%Z k = (inl ZeroDivisionError, log) ∧
      written_frames log = imap (λ i, burn_in (k + i)) fs ∧
      Forall (λ c, c = read ∨ ∃ img, c = write img) log.
Proof.
  induction fs as [|f fs IH]; [done|]. intros _ fuel cap k Hsrc Hd Hf Hz Hk.
  destruct fuel as [|fuel]; [simpl in Hf; lia|].
  apply drop_cons_inv in Hd as [Hread Hd].
  cbn [annotation_loop]. unfold cap_read, out_write.
  cbn -[Nat.modulo]. rewrite Hsrc. cbn -[Nat.modulo].
  rewrite Hread. cbn -[Nat.modulo].
  destruct fs as [|f' fs].
  - simpl in Hk. rewrite bool_decide_eq_true_2 by done.
    cbn -[Nat.modulo]. eexists. split; [done|]. split.
    + cbn. by rewrite Nat.add_0_r.
    + apply Forall_cons; split; [by left|].
      apply Forall_cons; split; [right; by eexists|]. constructor.
  - rewrite bool_decide_eq_false_2 by (apply Hz; simpl; lia).
    cbn -[Nat.modulo].
    destruct (IH ltac:(done) fuel
                {| source := Some v; pos := S (pos cap) |} (k + 1))
      as (log & Hloop & Hlog & Hcalls);
      [done|done|simpl in *; lia| |simpl in *|].
    { intros j Hj. apply Hz. simpl in *. lia. }
    { by replace (k + 1 + S (length fs)) with (k + S (S (length fs)))
        by lia. }
    rewrite Hloop. cbn -[Nat.modulo].
    eexists. split; [done|]. split.
    + change (burn_in k f :: written_frames log =
              burn_in (k + 0) f
              :: imap ((λ i, burn_in (k + i)) ∘ S) (f' :: fs)).
      rewrite Hlog, Nat.add_0_r. f_equal.
      apply imap_ext. intros i x _. simpl. f_equal. lia.
    + apply Forall_cons; split; [by left|].
      apply Forall_cons; split; [right; by eexists|]. done.
Qed.

(** X12. On every video that reports a frame count of 0 and whose first
    30 frames can be read, the call ends in a ZeroDivisionError at the
    progress line of frame 30: exactly the first 30 frames have been
    written, numbered 0 to 29, and neither handle is released. *)
Theorem add_frame_numbers_zero_count
    fuel input_path output_path v fs rest :
  videos input_path = Some v →
  writable output_path = true →
  CAP_PROP_FRAME_COUNT v = 0%Z →
  decoded v = (Some <$> fs) ++ rest →
  30 ≤ length fs →
  30 ≤ fuel →
  ∃ log,
    run fuel input_path output_path = (inl ZeroDivisionError, log) ∧
    written_frames log = imap burn_in (take 30 fs) ∧
    (release_capture ∉ log) ∧ (release_writer ∉ log).
Proof.
  intros Hv Hw Hcount Hdec Hlen Hfuel.
  destruct (annotation_loop_raises v {| w_opened := true |} (take 30 fs)
              ((Some <$> drop 30 fs) ++ rest))
    with (fuel := fuel) (cap := {| source := Some v; pos := 0 |}) (k := 0)
    as (log & Hloop & Hlog & Hcalls).
  - intros Hnil. apply (f_equal length) in Hnil.
    rewrite length_take_le in Hnil by lia. done.
  - done.
  - rewrite app_assoc, <-fmap_app, take_drop. by rewrite drop_0.
  - rewrite length_take_le by lia. lia.
  - intros j Hj. rewrite length_take_le in Hj by lia.
    rewrite Nat.mod_small by lia. lia.
  - by rewrite length_take_le by lia.
  - unfold add_frame_numbers_to_video, cv2_VideoCapture, cv2_VideoWriter,
      isOpened, cap_get, cap_release, out_release.
    cbn. rewrite Hv. cbn. rewrite Hw, Hcount. cbn. rewrite Hloop. cbn.
    eexists. split; [done|].
    assert (∀ c : call A, (c = read ∨ ∃ img, c = write img) →
              c ≠ release_capture ∧ c ≠ release_writer) as Hno.
    { intros c [->|[img ->]]; by split. }
    split_and!.
    + exact Hlog.
    + intros Hin. repeat (apply elem_of_cons in Hin as [?|Hin]; [done|]).
      eapply Forall_forall in Hcalls; [|exact Hin].
      by apply Hno in Hcalls as [? _].
    + intros Hin. repeat (apply elem_of_cons in Hin as [?|Hin]; [done|]).
      eapply Forall_forall in Hcalls; [|exact Hin].
      by apply Hno in Hcalls as [_ ?].
Qed.

(** X13. Frames with different numbers carry different texts. *)
Theorem counter_texts_distinct (j k : nat) :
  j ≠ k → counter_text j ≠ counter_text k.
Proof. intros Hjk Heq. by apply Hjk, counter_text_inj. Qed.

End numbering_more.

Lemma add_frame_numbers_open_failure_witness :
  (sample_files "missing.mp4" = None ∨ (λ _ : string, true) "out.mp4" = false) ∧
  ∃ log,
    add_frame_numbers_to_video sample_files (λ _, true) plain_getTextSize
      plain_rectangle plain_addWeighted plain_putText 5 "missing.mp4"
      "out.mp4" 2 3 (0, 255, 0)%Z = (inr false, log) ∧
    (read ∉ log) ∧ written_frames log = [] ∧
    match sample_files "missing.mp4" with
    | Some _ => last log = Some release_capture
    | None => log = [open_capture "missing.mp4"]
    end.
Proof.
  assert (sample_files "missing.mp4" = None
          ∨ (λ _ : string, true) "out.mp4" = false) as Hfail
    by (left; reflexivity).
  split; [exact Hfail|].
  exact (add_frame_numbers_open_failure sample_files (λ _, true)
           plain_getTextSize plain_rectangle plain_addWeighted plain_putText
           2 3 (0, 255, 0)%Z 5 "missing.mp4" "out.mp4" Hfail).
Defined.

Lemma add_frame_numbers_complete_witness :
  sample_files "in.mp4" = Some sample_video ∧
  (λ _ : string, true) "out.mp4" = true ∧
  decoded sample_video
    = (Some <$> [sample_frame]) ++ [None; Some sample_frame] ∧
  ([None; Some sample_frame] = []
   ∨ ∃ rest', [None; Some sample_frame] = None :: rest') ∧
  (CAP_PROP_FRAME_COUNT sample_video ≠ 0%Z ∨ length [sample_frame] < 30) ∧
  length [sample_frame] < 2 ∧
  ∃ body,
    add_frame_numbers_to_video sample_files (λ _, true) plain_getTextSize
      plain_rectangle plain_addWeighted plain_putText 2 "in.mp4" "out.mp4"
      2 3 (0, 255, 0)%Z
      = (inr true,
         [open_capture "in.mp4";
          open_writer "out.mp4" (CAP_PROP_FRAME_WIDTH sample_video)
            (CAP_PROP_FRAME_HEIGHT sample_video)]
         ++ body ++ [release_capture; release_writer]) ∧
    written_frames body
      = imap (annotate plain_getTextSize plain_rectangle plain_addWeighted
                plain_putText 2 3 (0, 255, 0)%Z) [sample_frame].
Proof.
  assert (sample_files "in.mp4" = Some sample_video) as Hv by reflexivity.
  assert ((λ _ : string, true) "out.mp4" = true) as Hw by reflexivity.
  assert (decoded sample_video
          = (Some <$> [sample_frame]) ++ [None; Some sample_frame]) as Hdec
    by reflexivity.
  assert ([None; Some sample_frame] = []
          ∨ ∃ rest', [None; Some sample_frame] = None :: rest') as Hrest
    by (right; eexists; reflexivity).
  assert (CAP_PROP_FRAME_COUNT sample_video ≠ 0%Z
          ∨ length [sample_frame] < 30) as Hz by (right; simpl; lia).
  assert (length [sample_frame] < 2) as Hfuel by (simpl; lia).
  repeat (split; [assumption|]).
  exact (add_frame_numbers_complete sample_files (λ _, true)
           plain_getTextSize plain_rectangle plain_addWeighted plain_putText
           2 3 (0, 255, 0)%Z 2 "in.mp4" "out.mp4" sample_video
           [sample_frame] [None; Some sample_frame]
           Hv Hw Hdec Hrest Hz Hfuel).
Defined.

Lemma add_frame_numbers_zero_count_witness :
  (λ _ : string, Some (uncounted_video sample_frame)) "in.mp4"
    = Some (uncounted_video sample_frame) ∧
  (λ _ : string, true) "out.mp4" = true ∧
  CAP_PROP_FRAME_COUNT (uncounted_video sample_frame) = 0%Z ∧
  decoded (uncounted_video sample_frame)
    = (Some <$> replicate 30 sample_frame) ++ [] ∧
  30 ≤ length (replicate 30 sample_frame) ∧
  30 ≤ 30 ∧
  ∃ log,
    add_frame_numbers_to_video (λ _, Some (uncounted_video sample_frame))
      (λ _, true) plain_getTextSize plain_rectangle plain_addWeighted
      plain_putText 30 "in.mp4" "out.mp4" 2 3 (0, 255, 0)%Z
      = (inl ZeroDivisionError, log) ∧
    written_frames log
      = imap (annotate plain_getTextSize plain_rectangle plain_addWeighted
                plain_putText 2 3 (0, 255, 0)%Z)
             (take 30 (replicate 30 sample_frame)) ∧
    (release_capture ∉ log) ∧ (release_writer ∉ log).
Proof.
  assert ((λ _ : string, Some (uncounted_video sample_frame)) "in.mp4"
          = Some (uncounted_video sample_frame)) as Hv by reflexivity.
  assert ((λ _ : string, true) "out.mp4" = true) as Hw by reflexivity.
  assert (CAP_PROP_FRAME_COUNT (uncounted_video sample_frame) = 0%Z)
    as Hcount by reflexivity.
  assert (decoded (uncounted_video sample_frame)
          = (Some <$> replicate 30 sample_frame) ++ []) as Hdec
    by reflexivity.
  assert (30 ≤ length (replicate 30 sample_frame)) as Hlen
    by (rewrite length_replicate; lia).
  assert (30 ≤ 30) as Hfuel by lia.
  repeat (split; [assumption|]).
  exact (add_frame_numbers_zero_count
           (λ _, Some (uncounted_video sample_frame)) (λ _, true)
           plain_getTextSize plain_rectangle plain_addWeighted plain_putText
           2 3 (0, 255, 0)%Z 30 "in.mp4" "out.mp4"
           (uncounted_video sample_frame) (replicate 30 sample_frame) []
           Hv Hw Hcount Hdec Hlen Hfuel).
Defined.

Lemma counter_texts_distinct_witness :
  0 ≠ 29 ∧ counter_text 0 ≠ counter_text 29.
Proof.
  assert (0 ≠ 29) as Hne by lia.
  split; [exact Hne|].
  exact (counter_texts_distinct 0 29 Hne).
Defined.
